(** * oauthenticator: CILogon and GitHub authorization decisions

    A shallow embedding of [oauthenticator/cilogon.py] and
    [oauthenticator/github.py]: username derivation from identity claims,
    the per-IdP allow rules of CILogon, the GitHub organization membership
    check and the paginated fetch of the GitHub API.

    Python dictionaries are finite maps ([gmap]), Python sets of strings are
    [gset string], Python exceptions are the [Raise] results of an error
    monad whose state records the log lines written and the HTTP requests
    issued. *)

From Stdlib Require Import ZArith Ascii String List.
From stdpp Require Import base option list gmap strings sorting.

Set Warnings "-register-all,-clear-no-such-hyp".

(** ** Python values and exceptions *)

(** A claim value of the userinfo response: a JSON string or [null]
    (Python [None], also what [dict.get] answers for a missing key). *)
Inductive pyval : Type :=
| PyNone
| PyStr (s : string).

#[global] Instance pyval_eq_dec : EqDecision pyval.
Proof. solve_decision. Defined.

(** Python truthiness: [None] and the empty string are false. *)
Definition truthy (v : pyval) : bool :=
  match v with
  | PyNone => false
  | PyStr s => bool_decide (s ≠ "")
  end.

(** The exceptions the modelled code raises.  [HTTPError] is tornado's
    [web.HTTPError(status, message)], the way the authenticators report a
    decision other than a plain [True]/[False]; the others are Python's
    built-in exceptions and the errors of the libraries called.
    [ValueError] is the class with its subclasses: the [UnicodeDecodeError]
    of a strict [bytes.decode] and the [json.JSONDecodeError] of
    [json.loads] are [ValueError]s, and nothing here tells them apart. *)
Inductive exn : Type :=
| HTTPError (status : Z) (message : string)
| KeyError (key : string)
| IndexError
| AttributeError
| TypeError
| ValueError
| ValidationError
| HTTPClientError (status : Z).

#[global] Instance exn_eq_dec : EqDecision exn.
Proof. solve_decision. Defined.

Inductive result (A : Type) : Type :=
| Ok (a : A)
| Raise (e : exn).
Arguments Ok {A} a.
Arguments Raise {A} e.

Definition rbind {A B} (r : result A) (k : A → result B) : result B :=
  match r with
  | Ok a => k a
  | Raise e => Raise e
  end.

(** ** Python string operations *)

(** [s.partition(c)] for a one-character separator: the text before the
    first [c] and, when there is a [c], the text after it. *)
Fixpoint partition (c : ascii) (s : string) : string * option string :=
  match s with
  | EmptyString => (EmptyString, None)
  | String a s' =>
      if Ascii.eqb a c then (EmptyString, Some s')
      else let '(h, t) := partition c s' in (String a h, t)
  end.

(** [s.split(c, 1)]: one or two pieces. *)
Definition split1 (c : ascii) (s : string) : list string :=
  match partition c s with
  | (h, None) => [h]
  | (h, Some t) => [h; t]
  end.

(** [s.split(c)]: all the pieces. *)
Fixpoint split (c : ascii) (s : string) : list string :=
  match s with
  | EmptyString => [EmptyString]
  | String a s' =>
      if Ascii.eqb a c then EmptyString :: split c s'
      else match split c s' with
           | p :: ps => String a p :: ps
           | [] => [String a EmptyString]
           end
  end.

(** [c in s] for a one-character [c]. *)
Fixpoint contains (c : ascii) (s : string) : bool :=
  match s with
  | EmptyString => false
  | String a s' => Ascii.eqb a c || contains c s'
  end.

(** [l[i]] on a Python list. *)
Definition index {A} (l : list A) (i : nat) : result A :=
  match l !! i with
  | Some x => Ok x
  | None => Raise IndexError
  end.

(** [d[k]] and [d.get(k)] on a Python dictionary with string keys. *)
Definition getitem {V} (d : gmap string V) (k : string) : result V :=
  match d !! k with
  | Some v => Ok v
  | None => Raise (KeyError k)
  end.

Definition dict_get (d : gmap string pyval) (k : string) : pyval :=
  default PyNone (d !! k).

(** [v.split("@", 1)] on a claim value: [None] has no [split]. *)
Definition pyval_split1 (c : ascii) (v : pyval) : result (list string) :=
  match v with
  | PyStr s => Ok (split1 c s)
  | PyNone => Raise AttributeError
  end.

(** Byte-wise lexicographic order, the order [sorted] puts strings in. *)
Definition str_le (a b : string) : Prop := String.leb a b = true.

#[global] Instance str_le_dec : RelDecision str_le.
Proof. intros a b. unfold str_le. apply _. Defined.

(** ** The world: log lines and HTTP requests *)

(** A small JSON value, for response bodies. *)
Inductive json : Type :=
| JNull
| JBool (b : bool)
| JNum (n : Z)
| JStr (s : string)
| JArr (items : list json)
| JObj (fields : list (string * json)).

Record request : Type := mkRequest {
  req_url : string;
  req_method : string;
  req_headers : list (string * string);
}.

(** What the code writes to [self.log]; each constructor is one of the
    log calls of the source, with the values its message interpolates. *)
Inductive log_entry : Type :=
| LogNoUsernameClaim (username_claims : list string) (user_info_keys : list string)
| LogIdpNotAllowed (selected_idp : pyval)
| LogInvalidEntityId (entity_id : string)
| LogCheckingMembership (username org : string)
| LogAllowingMember (username org_team : string)
| LogNotMember (username org_team : string) (status : Z) (message : json)
| LogNotInOrganizations (username : string).

Record world : Type := mkWorld {
  requests : list request;
  log : list log_entry;
}.

Definition M (A : Type) : Type := world → result A * world.

Definition ret {A} (a : A) : M A := λ w, (Ok a, w).
Definition raise {A} (e : exn) : M A := λ w, (Raise e, w).
Definition bind {A B} (m : M A) (k : A → M B) : M B :=
  λ w, match m w with
       | (Ok a, w') => k a w'
       | (Raise e, w') => (Raise e, w')
       end.
Definition lift {A} (r : result A) : M A := λ w, (r, w).
Definition write_log (e : log_entry) : M unit :=
  λ w, (Ok tt, mkWorld (requests w) (log w ++ [e])).

Notation "'let*' x ':=' m 'in' k" := (bind m (λ x, k))
  (at level 10, x name, m at level 100, k at level 200, only parsing).
Notation "m ;;; k" := (bind m (λ _, k))
  (at level 100, right associativity, only parsing).

Definition world0 : world := mkWorld [] [].

(** ** The authentication model handed to [check_allowed] *)

Record TokenResponse : Type := mkTokenResponse {
  access_token : string;
  token_type : string;
}.

(** [auth_model["auth_state"]]: [user] is the entry under
    [self.user_auth_state_key], the userinfo response. *)
Record AuthState : Type := mkAuthState {
  user : gmap string pyval;
  token_response : TokenResponse;
}.

Record AuthModel : Type := mkAuthModel {
  admin : bool;
  auth_state : AuthState;
}.

(** The decisions of a login attempt: allow ([True]), deny ([False] or a
    403), internal error (a 500).  Any other exception is a fault that
    leaves the authenticator unhandled. *)
Definition is_decision (r : result bool) : Prop :=
  match r with
  | Ok _ => True
  | Raise (HTTPError status _) => status = 403%Z ∨ status = 500%Z
  | Raise _ => False
  end.

(** * CILogon *)

Module CILogon.

(** [allowed_idps[<entity id>]["username_derivation"]]. *)
Record UsernameDerivation : Type := mkUsernameDerivation {
  ud_username_claim : string;
  ud_action : option string;
  ud_domain : option string;
  ud_prefix : option string;
}.

(** [allowed_idps[<entity id>]]. *)
Record IdpPolicy : Type := mkIdpPolicy {
  username_derivation : UsernameDerivation;
  allowed_domains : option (list string);
}.

(** The configuration traits of [CILogonOAuthenticator] the modelled
    methods read. *)
Record CILogonOAuthenticator : Type := mkCILogonOAuthenticator {
  username_claim : string;
  additional_username_claims : list string;
  allowed_idps : gmap string IdpPolicy;
  allowed_users : gset string;
}.

(** Truthiness of [policy.get("allowed_domains")]: configured and not
    empty. *)
Definition domains_configured (d : option (list string)) : bool :=
  match d with
  | Some (_ :: _) => true
  | _ => false
  end.

Section Authenticator.

Variable self : CILogonOAuthenticator.

(** [selected_idp in self.allowed_idps.keys()] followed by
    [self.allowed_idps[selected_idp]]: the keys are strings, so [None] is
    never among them. *)
Definition lookup_idp (selected_idp : pyval) : option IdpPolicy :=
  match selected_idp with
  | PyStr i => allowed_idps self !! i
  | PyNone => None
  end.

(** [scopes] is the very list [proposal.value]; [+=] extends it in place,
    so the second membership test sees the list after the first step. *)
Definition _validate_scope (proposal_value : list string) : list string :=
  let scopes := proposal_value in
  let scopes :=
    if bool_decide ("openid" ∉ scopes) then scopes ++ ["openid"] else scopes in
  let scopes :=
    if bool_decide (allowed_idps self ≠ ∅)
       && bool_decide ("org.cilogon.userinfo" ∉ scopes)
    then scopes ++ ["org.cilogon.userinfo"] else scopes in
  scopes.

Definition _get_final_username_claim_list (user_info : gmap string pyval)
  : result (list string) :=
  let username_claims := [username_claim self] in
  let username_claims :=
    if bool_decide (additional_username_claims self ≠ [])
    then username_claims ++ additional_username_claims self
    else username_claims in
  if bool_decide (allowed_idps self ≠ ∅) then
    rbind (getitem user_info "idp") (λ selected_idp,
      match lookup_idp selected_idp with
      | Some policy => Ok [ud_username_claim (username_derivation policy)]
      | None => Ok username_claims
      end)
  else Ok username_claims.

(** The [for] loop of [_get_username_from_claim_list]; [username] is the
    variable's value when the remaining claims are entered. *)
Fixpoint username_loop (user_info : gmap string pyval) (username : pyval)
    (username_claims : list string) : pyval :=
  match username_claims with
  | [] => username
  | claim :: rest =>
      let username := dict_get user_info claim in
      if truthy username then username else username_loop user_info username rest
  end.

Definition _get_username_from_claim_list (user_info : gmap string pyval)
    (username_claims : list string) : pyval :=
  username_loop user_info PyNone username_claims.

(** A claim is present with the non-empty value [s]. *)
Definition present_nonempty (user_info : gmap string pyval) (claim s : string)
  : Prop :=
  user_info !! claim = Some (PyStr s) ∧ s ≠ "".

(** [sorted(user_info.keys())]. *)
Definition sorted_keys (user_info : gmap string pyval) : list string :=
  merge_sort str_le (elements (dom user_info)).

(** [if not username] holds for [None] and for the empty string: the two
    branches that log and raise the 500. *)
Definition user_info_to_username (user_info : gmap string pyval) : M string :=
  let* username_claims := lift (_get_final_username_claim_list user_info) in
  let username := _get_username_from_claim_list user_info username_claims in
  match username with
  | PyStr username =>
      if bool_decide (username = "") then
        write_log (LogNoUsernameClaim username_claims (sorted_keys user_info)) ;;;
        raise (HTTPError 500 "Failed to get username from CILogon")
      else if bool_decide (allowed_idps self ≠ ∅) then
        let* selected_idp := lift (getitem user_info "idp") in
        match lookup_idp selected_idp with
        | Some policy =>
            let username_derivation := username_derivation policy in
            let action := ud_action username_derivation in
            if bool_decide (action = Some "strip_idp_domain") then
              let* username := lift (index (split1 "@" username) 0) in
              ret username
            else if bool_decide (action = Some "prefix") then
              match ud_prefix username_derivation with
              | Some prefix => ret (prefix +:+ ":" +:+ username)
              | None => raise (KeyError "prefix")
              end
            else ret username
        | None => ret username
        end
      else ret username
  | PyNone =>
      write_log (LogNoUsernameClaim username_claims (sorted_keys user_info)) ;;;
      raise (HTTPError 500 "Failed to get username from CILogon")
  end.

Definition check_allowed (username : string) (auth_model : option AuthModel)
  : M bool :=
  match auth_model with
  | None => ret true
  | Some auth_model =>
      if admin auth_model then ret true
      else if bool_decide (allowed_idps self ≠ ∅) then
        let user_info := user (auth_state auth_model) in
        let* selected_idp := lift (getitem user_info "idp") in
        match lookup_idp selected_idp with
        | None =>
            write_log (LogIdpNotAllowed selected_idp) ;;;
            raise (HTTPError 403
              "Trying to login using an identity provider that was not allowed")
        | Some policy =>
            let allowed_domains := allowed_domains policy in
            if bool_decide (allowed_users self ≠ ∅)
               || domains_configured allowed_domains then
              if bool_decide (username ∈ allowed_users self) then ret true
              else if domains_configured allowed_domains then
                let* username_claims := lift (_get_final_username_claim_list user_info) in
                let username_with_domain :=
                  _get_username_from_claim_list user_info username_claims in
                let* parts := lift (pyval_split1 "@" username_with_domain) in
                let* user_domain := lift (index parts 1) in
                if bool_decide (user_domain ∈ default [] allowed_domains)
                then ret true
                else raise (HTTPError 403
                  "Trying to login using a domain that was not allowed")
              else ret false
            else ret true
        end
      else if bool_decide (allowed_users self ≠ ∅) then
        if bool_decide (username ∈ allowed_users self) then ret true
        else ret false
      else ret true
  end.

End Authenticator.

(** *** Validation of [allowed_idps] *)

Section Validation.

(** [urlparse(entity_id).scheme], of Python's [urllib.parse]: [None]
    where [urlparse] raises its [ValueError], as it does on a key with one
    bracket of an IP literal and not the other (['https://[::1']). *)
Variable urlparse_scheme : string → option string.

(** [jsonschema.validate(policy, schema)] against
    [schemas/cilogon-schema.yaml]: [false] when it raises. *)
Variable schema_valid : IdpPolicy → bool.

Definition accepted_entity_id_scheme : list string := ["urn"; "https"; "http"].

(** An item the loop of [_validate_allowed_idps] passes over. *)
Definition item_ok (entity_id : string) (policy : IdpPolicy) : Prop :=
  schema_valid policy = true
  ∧ ∃ scheme, urlparse_scheme entity_id = Some scheme
              ∧ scheme ∈ accepted_entity_id_scheme.

(** The body of the loop of [_validate_allowed_idps] for one item.  The
    [ValueError] of [urlparse] leaves the loop before anything is logged;
    the one the loop raises itself comes after its log entry. *)
Definition validate_item (item : string * IdpPolicy) : M unit :=
  let '(entity_id, username_derivation) := item in
  if schema_valid username_derivation then
    match urlparse_scheme entity_id with
    | None => raise ValueError
    | Some entity_id_scheme =>
        if bool_decide (entity_id_scheme ∉ accepted_entity_id_scheme) then
          write_log (LogInvalidEntityId entity_id) ;;;
          raise ValueError
        else ret tt
    end
  else raise ValidationError.

Fixpoint validate_items (items : list (string * IdpPolicy)) : M unit :=
  match items with
  | [] => ret tt
  | item :: rest => validate_item item ;;; validate_items rest
  end.

(** The proposed dictionary is the list of its items, in the order
    [idps.items()] yields them, the order of insertion: the first offending
    entry in that order is the one reported. *)
Definition _validate_allowed_idps (proposal_value : list (string * IdpPolicy))
  : M (list (string * IdpPolicy)) :=
  let idps := proposal_value in
  validate_items idps ;;;
  ret idps.

End Validation.

(** Modelled from the spec: the schema file [schemas/cilogon-schema.yaml]
    is not among the sources.  The spec gives its constraints:
    [username_claim] is required (a field of [UsernameDerivation] here), an
    optional [action] is [strip_idp_domain] or [prefix], the first requires
    [domain] and the second requires [prefix]. *)
Definition cilogon_schema (policy : IdpPolicy) : bool :=
  let d := username_derivation policy in
  match ud_action d with
  | None => true
  | Some a =>
      if bool_decide (a = "strip_idp_domain") then bool_decide (is_Some (ud_domain d))
      else if bool_decide (a = "prefix") then bool_decide (is_Some (ud_prefix d))
      else false
  end.

(** The scheme [urllib.parse.urlsplit] finds in a URL without leading
    blanks or control characters: the text before the first colon,
    lower-cased, when it starts with an ASCII letter and holds only
    letters, digits, [+], [-] and [.]; the empty string otherwise. *)
Definition is_alpha (a : ascii) : bool :=
  let n := nat_of_ascii a in
  (Nat.leb 65 n && Nat.leb n 90) || (Nat.leb 97 n && Nat.leb n 122).

Definition is_scheme_char (a : ascii) : bool :=
  let n := nat_of_ascii a in
  is_alpha a || (Nat.leb 48 n && Nat.leb n 57)
  || bool_decide (a ∈ ["+"; "-"; "."]%char).

Definition lower (a : ascii) : ascii :=
  let n := nat_of_ascii a in
  if Nat.leb 65 n && Nat.leb n 90 then ascii_of_nat (n + 32) else a.

Definition urlsplit_scheme (url : string) : string :=
  match partition ":" url with
  | (String a rest, Some _) =>
      if is_alpha a && forallb is_scheme_char (list_ascii_of_string (String a rest))
      then string_of_list_ascii (map lower (list_ascii_of_string (String a rest)))
      else ""
  | _ => ""
  end.

(** What [urlsplit] goes on with once the scheme is taken: the text after
    the colon of the scheme, the whole URL when it finds no scheme. *)
Definition urlsplit_rest (url : string) : string :=
  match partition ":" url with
  | (String a rest, Some t) =>
      if is_alpha a && forallb is_scheme_char (list_ascii_of_string (String a rest))
      then t
      else url
  | _ => url
  end.

(** [_splitnetloc(url, 2)]: the text up to the first [/], [?] or [#]. *)
Fixpoint _splitnetloc (url : string) : string :=
  match url with
  | EmptyString => EmptyString
  | String a url' =>
      if bool_decide (a ∈ ["/"; "?"; "#"]%char) then EmptyString
      else String a (_splitnetloc url')
  end.

(** The network location of a URL: what follows [//] after the scheme. *)
Definition urlsplit_netloc (url : string) : string :=
  match urlsplit_rest url with
  | String "/" (String "/" url') => _splitnetloc url'
  | _ => ""
  end.

(** [urlparse(url).scheme] for a URL of ASCII characters without leading
    blanks or control characters, whose bracketed host, if it has one, is
    an IP literal: [urlsplit] raises [ValueError("Invalid IPv6 URL")] when
    the network location holds one of the brackets and not the other. *)
Definition py_urlparse_scheme (url : string) : option string :=
  let netloc := urlsplit_netloc url in
  if (contains "[" netloc && negb (contains "]" netloc))
     || (contains "]" netloc && negb (contains "[" netloc))
  then None
  else Some (urlsplit_scheme url).

End CILogon.

(** * GitHub *)

Module GitHub.

(** A [tornado.HTTPResponse]: its status code, what the method that
    receives it reads from its body with [json.loads] ([None] when that
    raises a [ValueError]: the body is not JSON text, an empty body among
    them, or it is not UTF-8 where the method decodes it strictly), and
    [resp.headers.get('Link')]. *)
Record response : Type := mkResponse {
  code : Z;
  body_json : option json;
  link_header : option string;
}.

(** The configuration traits of [GitHubOAuthenticator] the modelled
    methods read.  [allowed_organizations] is a Python set: the list is
    its elements in the order the [for] loop meets them. *)
Record GitHubOAuthenticator : Type := mkGitHubOAuthenticator {
  github_api : string;
  allowed_organizations : list string;
}.

(** [d.get(k)] and [d[k]] on a decoded JSON object, given by its items. *)
Definition obj_get (fields : list (string * json)) (k : string) : option json :=
  snd <$> find (λ kv, bool_decide (fst kv = k)) fields.

(** [content += resp_json]: a list is appended, a dict gives its keys, a
    string its characters, anything else is not iterable. *)
Definition extend (content : list json) (resp_json : json)
  : result (list json) :=
  match resp_json with
  | JArr items => Ok (content ++ items)
  | JObj fields => Ok (content ++ map (λ kv, JStr (fst kv)) fields)
  | JStr s =>
      Ok (content ++ map (λ a, JStr (String a EmptyString)) (list_ascii_of_string s))
  | JNull | JBool _ | JNum _ => Raise TypeError
  end.

(** The [for l in links] loop of [_paginated_fetch]: the URL of the first
    link whose [rel] is [next]. *)
Fixpoint find_next (links : list (gmap string string))
  : result (option string) :=
  match links with
  | [] => Ok None
  | l :: rest =>
      if bool_decide (l !! "rel" = Some "next") then
        rbind (getitem l "url") (λ next_url, Ok (Some next_url))
      else find_next rest
  end.

Section Authenticator.

Variable self : GitHubOAuthenticator.

(** The remote API: its answer to a request, given the requests it has
    received before. *)
Variable server : list request → request → response.

(** [requests.utils.parse_header_links]: each link is a dict. *)
Variable parse_header_links : string → list (gmap string string).

(** [OAuthenticator.build_userdata_request_headers] of [oauth2.py]. *)
Variable build_userdata_request_headers : string → string → list (string * string).

(** [OAuthenticator.check_allowed] of [oauth2.py], the base decision. *)
Variable super_check_allowed : string → option AuthModel → M bool.

(** Modelled from the spec: [OAuthenticator.httpfetch] of [oauth2.py], the
    generic HTTP client, is not among the sources.  One call issues one
    GET and gives the response back; with [raise_error] an error status
    raises instead, and without it the response is returned whatever its
    status (a failure to reach the server is then a response too). *)
Definition httpfetch (url : string) (raise_error : bool)
    (headers : list (string * string)) : M response :=
  λ w,
    let req := mkRequest url "GET" headers in
    let resp := server (requests w) req in
    let w' := mkWorld (requests w ++ [req]) (log w) in
    if raise_error && negb (bool_decide (200 ≤ code resp < 300)%Z)
    then (Raise (HTTPClientError (code resp)), w')
    else (Ok resp, w').

(** The URL and the organization of a membership check; unpacking
    [org_team.split(":")] into two names raises on three pieces or more. *)
Definition membership_url (org_team username : string)
  : result (string * string) :=
  if contains ":" org_team then
    match split ":" org_team with
    | [org; team] =>
        Ok (org, github_api self +:+ "/orgs/" +:+ org +:+ "/teams/" +:+ team
                 +:+ "/members/" +:+ username)
    | _ => Raise ValueError
    end
  else
    let org := org_team in
    Ok (org, github_api self +:+ "/orgs/" +:+ org +:+ "/members/" +:+ username).

Definition _check_membership_allowed_organizations
    (org_team username access_token token_type : string) : M bool :=
  let headers := build_userdata_request_headers access_token token_type in
  let* target := lift (membership_url org_team username) in
  let '(org, api_url) := target in
  write_log (LogCheckingMembership username org) ;;;
  let* resp := httpfetch api_url false headers in
  if bool_decide (code resp = 204%Z) then
    write_log (LogAllowingMember username org_team) ;;;
    ret true
  else
    let* message :=
      match body_json resp with
      | None => ret (JStr "")
      | Some (JObj fields) => ret (default (JStr "") (obj_get fields "message"))
      | Some _ => raise AttributeError
      end in
    write_log (LogNotMember username org_team (code resp) message) ;;;
    ret false.

(** The [for org_team in self.allowed_organizations] loop of
    [check_allowed]: [true] when the loop returned [True]. *)
Fixpoint organizations_loop (orgs : list string)
    (username access_token token_type : string) : M bool :=
  match orgs with
  | [] => ret false
  | org_team :: rest =>
      let* member := _check_membership_allowed_organizations
                       org_team username access_token token_type in
      if member then ret true
      else organizations_loop rest username access_token token_type
  end.

Definition check_allowed (username : string) (auth_model : option AuthModel)
  : M bool :=
  let* allowed := super_check_allowed username auth_model in
  if allowed then ret true
  else if bool_decide (allowed_organizations self ≠ []) then
    match auth_model with
    | None => raise TypeError
    | Some auth_model =>
        let access_token := access_token (token_response (auth_state auth_model)) in
        let token_type := token_type (token_response (auth_state auth_model)) in
        let* member := organizations_loop (allowed_organizations self)
                         username access_token token_type in
        if member then ret true
        else
          write_log (LogNotInOrganizations username) ;;;
          ret false
    end
  else ret false.

(** One turn of the [while True] loop of [_paginated_fetch]: the content so
    far extended with the page, and the URL to go on with, if any.
    [json.loads(resp.body.decode())] decodes strictly: a body that is not
    UTF-8 raises [UnicodeDecodeError], text that is not JSON raises
    [json.JSONDecodeError], a [ValueError] either way. *)
Definition fetch_page (url : string) (content : list json)
    (access_token token_type : string) : M (list json * option string) :=
  let* resp := httpfetch url true
                 (build_userdata_request_headers access_token token_type) in
  let* resp_json :=
    match body_json resp with
    | Some j => ret j
    | None => raise ValueError
    end in
  let* content := lift (extend content resp_json) in
  match link_header resp with
  | None => ret (content, None)
  | Some links_header =>
      if bool_decide (links_header = "") then ret (content, None)
      else
        let links := parse_header_links links_header in
        let* next_url := lift (find_next links) in
        ret (content, next_url)
  end.

(** The loop, cut after [fuel] turns: [None] when it has not left the
    loop by then. *)
Fixpoint paginated_loop (fuel : nat) (url : string) (content : list json)
    (access_token token_type : string) (w : world)
  : option (result (list json) * world) :=
  match fuel with
  | O => None
  | S fuel =>
      match fetch_page url content access_token token_type w with
      | (Raise e, w') => Some (Raise e, w')
      | (Ok (content, None), w') => Some (Ok content, w')
      | (Ok (content, Some next_url), w') =>
          paginated_loop fuel next_url content access_token token_type w'
      end
  end.

Definition _paginated_fetch (fuel : nat) (api_url access_token token_type : string)
    (w : world) : option (result (list json) * world) :=
  let url := api_url in
  let content := [] in
  paginated_loop fuel url content access_token token_type w.

(** The GET a membership check of [org_team] issues. *)
Definition membership_request (org_team username access_token token_type : string)
  : result request :=
  rbind (membership_url org_team username) (λ target,
    Ok (mkRequest (snd target) "GET"
          (build_userdata_request_headers access_token token_type))).

(** The membership checks of the entries [orgs], run one after the other
    from the world [w], all answer [False] and leave the world [w']. *)
Inductive all_denied (username access_token token_type : string)
  : list string → world → world → Prop :=
| all_denied_nil w :
    all_denied username access_token token_type [] w w
| all_denied_cons org_team orgs w w' w'' :
    _check_membership_allowed_organizations org_team username access_token token_type w
    = (Ok false, w') →
    all_denied username access_token token_type orgs w' w'' →
    all_denied username access_token token_type (org_team :: orgs) w w''.

(** The links of a [Link] header hold a [rel="next"] link, the first of
    which has the URL [next_url]. *)
Definition next_link (links : list (gmap string string)) (next_url : string)
  : Prop :=
  ∃ before l after,
    links = before ++ l :: after
    ∧ (∀ l', l' ∈ before → l' !! "rel" ≠ Some "next")
    ∧ l !! "rel" = Some "next"
    ∧ l !! "url" = Some next_url.

(** A response that ends the pagination: no [Link] header (or an empty
    one), or a header without a [rel="next"] link. *)
Definition last_page (resp : response) : Prop :=
  match link_header resp with
  | None => True
  | Some links_header =>
      links_header = ""
      ∨ ∀ l, l ∈ parse_header_links links_header → l !! "rel" ≠ Some "next"
  end.

(** A chain of pages from [url], served to a client that has issued the
    requests [history]: each page is a success response whose body is a
    JSON list, every page but the last links to the next one.  The chain
    is given by the URL and the items of each page. *)
Inductive page_chain (headers : list (string * string))
  : list request → string → list (string * list json) → Prop :=
| page_chain_last history url items :
    let resp := server history (mkRequest url "GET" headers) in
    (200 ≤ code resp < 300)%Z →
    body_json resp = Some (JArr items) →
    last_page resp →
    page_chain headers history url [(url, items)]
| page_chain_next history url items links_header next_url pages :
    let resp := server history (mkRequest url "GET" headers) in
    (200 ≤ code resp < 300)%Z →
    body_json resp = Some (JArr items) →
    link_header resp = Some links_header →
    links_header ≠ "" →
    next_link (parse_header_links links_header) next_url →
    page_chain headers (history ++ [mkRequest url "GET" headers]) next_url pages →
    page_chain headers history url ((url, items) :: pages).

End Authenticator.

End GitHub.

(** * The CILogon login handler *)

Module CILogonLoginHandler.

(** The traits of the authenticator [authorize_redirect] reads. *)
Record Authenticator : Type := mkAuthenticator {
  shown_idps : list string;
  skin : string;
}.

(** [sep.join(l)]. *)
Fixpoint join (sep : string) (l : list string) : string :=
  match l with
  | [] => ""
  | x :: rest =>
      match rest with
      | [] => x
      | _ :: _ => x +:+ sep +:+ join sep rest
      end
  end.

(** [authorize_redirect], by the [extra_params] it hands on to
    [OAuthLoginHandler.authorize_redirect]: [kwargs.setdefault] gives the
    caller's dictionary, or a new empty one when the caller passed none,
    and the two assignments update it. *)
Definition authorize_redirect (authenticator : Authenticator)
    (extra_params : option (gmap string string)) : gmap string string :=
  let extra_params := default ∅ extra_params in
  let extra_params :=
    if bool_decide (shown_idps authenticator ≠ []) then
      let idps := join "," (shown_idps authenticator) in
      <["selected_idp" := idps]> extra_params
    else extra_params in
  let extra_params :=
    if bool_decide (skin authenticator ≠ "") then
      <["skin" := skin authenticator]> extra_params
    else extra_params in
  extra_params.

End CILogonLoginHandler.

(** * The defaults of the GitHub URLs *)

Module GitHubDefaults.

(** [os.environ.get(name)]. *)
Definition environ_get (environ : gmap string string) (name : string) : pyval :=
  match environ !! name with
  | Some value => PyStr value
  | None => PyNone
  end.

(** [p in s] for strings. *)
Fixpoint infix (p s : string) : bool :=
  String.prefix p s
  || match s with
     | EmptyString => false
     | String _ s' => infix p s'
     end.

(** [s.rstrip(c)] for a one-character [c]. *)
Fixpoint rstrip (c : ascii) (s : string) : string :=
  match s with
  | EmptyString => EmptyString
  | String a s' =>
      match rstrip c s' with
      | EmptyString => if Ascii.eqb a c then EmptyString else String a EmptyString
      | r => String a r
      end
  end.

(** A call of [warnings.warn]. *)
Inductive warning : Type :=
| PendingDeprecationWarning (message : string).

(** [_github_url_default]: the URL and the warnings issued on the way. *)
Definition _github_url_default (environ : gmap string string)
  : string * list warning :=
  let github_url := environ_get environ "GITHUB_URL" in
  let '(github_url, warnings) :=
    if negb (truthy github_url) then
      let host := environ_get environ "GITHUB_HOST" in
      match host with
      | PyStr h =>
          if truthy host then
            let '(protocol, warnings) :=
              if truthy (environ_get environ "GITHUB_HTTP") then
                ("http",
                 [PendingDeprecationWarning
                    ("Use of GITHUB_HOST with GITHUB_HTTP might be deprecated in the future. "
                     +:+ "Use GITHUB_URL=http://" +:+ h
                     +:+ " to set host and protocol together.")])
              else ("https", []) in
            (PyStr (protocol +:+ "://" +:+ h), warnings)
          else (github_url, [])
      | PyNone => (github_url, [])
      end
    else (github_url, []) in
  match github_url with
  | PyStr url =>
      if truthy github_url then
        if negb (infix "://" url) then ("https://" +:+ url, warnings)
        else (url, warnings)
      else (rstrip "/" "https://github.com", warnings)
  | PyNone => (rstrip "/" "https://github.com", warnings)
  end.

End GitHubDefaults.

(** * GitHub: the update of the authentication model *)

Module GitHubUpdate.
Import GitHub.

(** Truthiness of a decoded JSON value. *)
Definition json_truthy (j : json) : bool :=
  match j with
  | JNull => false
  | JBool b => b
  | JNum n => bool_decide (n ≠ 0%Z)
  | JStr s => bool_decide (s ≠ "")
  | JArr items => match items with [] => false | _ :: _ => true end
  | JObj fields => match fields with [] => false | _ :: _ => true end
  end.

(** [auth_model["auth_state"]] of a GitHub login: the user record of the
    API under [github_user], the token response, the granted scopes when
    the key [scope] is there, and the teams once they are stored. *)
Record GitHubAuthState : Type := mkGitHubAuthState {
  github_user : gmap string json;
  github_token_response : TokenResponse;
  granted_scope : option (list string);
  teams : option (list json);
}.

Record GitHubAuthModel : Type := mkGitHubAuthModel {
  github_admin : bool;
  github_auth_state : GitHubAuthState;
}.

(** The further traits [update_auth_model] reads. *)
Record Traits : Type := mkTraits {
  populate_teams_in_auth_state : bool;
  scope : list string;
}.

(** The world with the lines [update_auth_model] writes by
    [self.log.error]. *)
Record session : Type := mkSession {
  io : world;
  error_log : list string;
}.

(** The loop over the e-mail records: the [email] of the first record
    whose [primary] is true.  A record is subscripted by name: it has to be
    an object, with the key. *)
Fixpoint primary_email (records : list json) : result (option json) :=
  match records with
  | [] => Ok None
  | val :: rest =>
      match val with
      | JObj fields =>
          match obj_get fields "primary" with
          | None => Raise (KeyError "primary")
          | Some primary =>
              if json_truthy primary then
                match obj_get fields "email" with
                | Some email => Ok (Some email)
                | None => Raise (KeyError "email")
                end
              else primary_email rest
          end
      | _ => Raise TypeError
      end
  end.

(** A record of the e-mail list that is not the primary address. *)
Definition secondary (record : json) : Prop :=
  ∃ fields primary,
    record = JObj fields
    ∧ obj_get fields "primary" = Some primary
    ∧ json_truthy primary = false.

Section Authenticator.

Variable self : GitHubOAuthenticator.
Variable traits : Traits.
Variable server : list request → request → response.
Variable parse_header_links : string → list (gmap string string).
Variable build_userdata_request_headers : string → string → list (string * string).

(** Modelled from the spec: [OAuthenticator.httpfetch] with its default
    [parse_json], not among the sources: the GET of [httpfetch], then the
    body decoded as JSON. *)
Definition httpfetch_json (url : string) (headers : list (string * string))
  : M json :=
  let* resp := httpfetch server url true headers in
  match body_json resp with
  | Some j => ret j
  | None => raise ValueError
  end.

(** The first part of [update_auth_model]: the private e-mail.  The
    assignment to [user_info["email"]] changes the user record of the
    model in place. *)
Definition fetch_private_email (auth_model : GitHubAuthModel) : M GitHubAuthModel :=
  let auth_state := github_auth_state auth_model in
  let user_info := github_user auth_state in
  let access_token := access_token (github_token_response auth_state) in
  let token_type := token_type (github_token_response auth_state) in
  let granted_scopes := default [] (granted_scope auth_state) in
  let* email := lift (getitem user_info "email") in
  if negb (json_truthy email)
     && (bool_decide ("user" ∈ granted_scopes)
         || bool_decide ("user:email" ∈ granted_scopes))
  then
    let* resp_json :=
      httpfetch_json (github_api self +:+ "/user/emails")
        (build_userdata_request_headers access_token token_type) in
    let* records := lift (extend [] resp_json) in
    let* found := lift (primary_email records) in
    match found with
    | Some email =>
        ret (mkGitHubAuthModel (github_admin auth_model)
               (mkGitHubAuthState (<["email" := email]> user_info)
                  (github_token_response auth_state)
                  (granted_scope auth_state) (teams auth_state)))
    | None => ret auth_model
    end
  else ret auth_model.

Definition teams_url : string := github_api self +:+ "/user/teams?per_page=100".

(** [update_auth_model]; the fuel is that of the paginated fetch. *)
Definition update_auth_model (fuel : nat) (auth_model : GitHubAuthModel)
    (s : session) : option (result GitHubAuthModel * session) :=
  match fetch_private_email auth_model (io s) with
  | (Raise e, w) => Some (Raise e, mkSession w (error_log s))
  | (Ok auth_model, w) =>
      if populate_teams_in_auth_state traits then
        if bool_decide ("read:org" ∉ scope traits) then
          Some (Ok auth_model,
                mkSession w
                  (error_log s ++
                   ["read:org scope is required for populate_teams_in_auth_state functionality to work"]))
        else
          let auth_state := github_auth_state auth_model in
          let access_token := access_token (github_token_response auth_state) in
          let token_type := token_type (github_token_response auth_state) in
          match _paginated_fetch server parse_header_links
                  build_userdata_request_headers fuel teams_url
                  access_token token_type w with
          | None => None
          | Some (Raise e, w') => Some (Raise e, mkSession w' (error_log s))
          | Some (Ok user_teams, w') =>
              Some (Ok (mkGitHubAuthModel (github_admin auth_model)
                          (mkGitHubAuthState (github_user auth_state)
                             (github_token_response auth_state)
                             (granted_scope auth_state) (Some user_teams))),
                    mkSession w' (error_log s))
          end
      else Some (Ok auth_model, mkSession w (error_log s))
  end.

End Authenticator.

End GitHubUpdate.

(** * Example configurations and logins *)

Module Examples.
Import CILogon.

Definition token : TokenResponse := mkTokenResponse "gho_token" "bearer".

(** GitHub as the one allowed IdP, usernames taken from the [username]
    claim, logins restricted to the domain [uni.edu]. *)
Definition github_entity_id : string := "https://github.com/login/oauth/authorize".

Definition github_policy : IdpPolicy :=
  mkIdpPolicy (mkUsernameDerivation "username" None None None) (Some ["uni.edu"]).

Definition github_idp_only : CILogonOAuthenticator :=
  mkCILogonOAuthenticator "eppn" ["email"]
    {[ github_entity_id := github_policy ]} ∅.

(** A login whose [username] claim holds no [@]. *)
Definition alice_login : AuthModel :=
  mkAuthModel false
    (mkAuthState {[ "idp" := PyStr github_entity_id; "username" := PyStr "alice" ]}
       token).

(** A login whose userinfo response has no [idp] claim. *)
Definition no_idp_login : AuthModel :=
  mkAuthModel false (mkAuthState {[ "username" := PyStr "alice@uni.edu" ]} token).

(** A table whose one entry has a well-formed key and asks for the
    [prefix] action without naming a prefix. *)
Definition prefix_without_prefix : list (string * IdpPolicy) :=
  [ (github_entity_id,
     mkIdpPolicy (mkUsernameDerivation "username" (Some "prefix") None None) None) ].

(** A table keyed by a domain name where an entity id belongs. *)
Definition bare_domain_table : list (string * IdpPolicy) :=
  [ ("utoronto.ca",
     mkIdpPolicy (mkUsernameDerivation "email" None None None) None) ].

(** A table whose first key opens an IP literal and never closes it, and
    whose second key is a domain name. *)
Definition open_bracket_table : list (string * IdpPolicy) :=
  [ ("https://[::1",
     mkIdpPolicy (mkUsernameDerivation "email" None None None) None);
    ("utoronto.ca",
     mkIdpPolicy (mkUsernameDerivation "email" None None None) None) ].

(** No table of IdPs: the default claim and its fallback are tried. *)
Definition no_table : CILogonOAuthenticator :=
  mkCILogonOAuthenticator "eppn" ["email"] ∅ {[ "carol" ]}.

(** A userinfo response with neither [eppn] nor a usable [email]. *)
Definition nameless_user_info : gmap string pyval :=
  {[ "idp" := PyStr github_entity_id; "name" := PyStr "Alice";
     "email" := PyStr "" ]}.

(** A university IdP whose usernames are the e-mail addresses with the
    domain stripped, logins restricted to [uni.edu]. *)
Definition uni_entity_id : string := "https://idp.uni.edu/shibboleth".

Definition uni_policy : IdpPolicy :=
  mkIdpPolicy
    (mkUsernameDerivation "email" (Some "strip_idp_domain") (Some "uni.edu") None)
    (Some ["uni.edu"]).

Definition uni_only : CILogonOAuthenticator :=
  mkCILogonOAuthenticator "eppn" ["email"] {[ uni_entity_id := uni_policy ]}
    {[ "carol" ]}.

Definition bob_user_info : gmap string pyval :=
  {[ "idp" := PyStr uni_entity_id; "email" := PyStr "bob@uni.edu" ]}.

Definition bob_login : AuthModel :=
  mkAuthModel false (mkAuthState bob_user_info token).

(** Two logins from a domain that is not allowed; [carol] is on the
    allow-list of usernames, [mallory] is not. *)
Definition carol_login : AuthModel :=
  mkAuthModel false
    (mkAuthState {[ "idp" := PyStr uni_entity_id; "email" := PyStr "carol@other.org" ]}
       token).

Definition mallory_login : AuthModel :=
  mkAuthModel false
    (mkAuthState {[ "idp" := PyStr uni_entity_id; "email" := PyStr "mallory@other.org" ]}
       token).

(** GitHub: three allowed organizations, in the order they are met. *)
Definition github : GitHub.GitHubOAuthenticator :=
  GitHub.mkGitHubOAuthenticator "https://api.github.com"
    ["org-c"; "org-a"; "org-b:team-x"].

Definition userdata_headers (access_token token_type : string)
  : list (string * string) :=
  [("Accept", "application/json"); ("User-Agent", "JupyterHub");
   ("Authorization", token_type +:+ " " +:+ access_token)].

(** A base decision that denies. *)
Definition base_denies : string → option AuthModel → M bool :=
  λ _ _, ret false.

Definition not_found : GitHub.response :=
  GitHub.mkResponse 404 (Some (JObj [("message", JStr "Not Found")])) None.

(** An API for which [alice] is a member of [org-a] and of nothing else. *)
Definition org_a_server : list request → request → GitHub.response :=
  λ _ rq,
    if bool_decide (req_url rq = "https://api.github.com/orgs/org-a/members/alice")
    then GitHub.mkResponse 204 None None
    else not_found.

(** A gateway in front of the API that answers 502 with the JSON text
    [[]] for a body. *)
Definition bad_gateway_server : list request → request → GitHub.response :=
  λ _ _, GitHub.mkResponse 502 (Some (JArr [])) None.

(** A server that answers 200 with the one byte [0xff] for a body, which
    is not UTF-8: nothing can be read from it as JSON. *)
Definition undecodable_server : list request → request → GitHub.response :=
  λ _ _, GitHub.mkResponse 200 None None.

Definition alice_github_login : AuthModel :=
  mkAuthModel false (mkAuthState {[ "login" := PyStr "alice" ]} token).

(** Two pages of teams. *)
Definition teams_url : string := "https://api.github.com/user/teams?per_page=100".
Definition teams_url_2 : string :=
  "https://api.github.com/user/teams?per_page=100&page=2".
Definition teams_link : string :=
  "<https://api.github.com/user/teams?per_page=100&page=2>; rel=next, <https://api.github.com/user/teams?per_page=100&page=2>; rel=last".

Definition teams_server : list request → request → GitHub.response :=
  λ _ rq,
    if bool_decide (req_url rq = teams_url) then
      GitHub.mkResponse 200 (Some (JArr [JStr "team-1"; JStr "team-2"]))
        (Some teams_link)
    else if bool_decide (req_url rq = teams_url_2) then
      GitHub.mkResponse 200 (Some (JArr [JStr "team-3"])) None
    else not_found.

(** The links of [teams_link], as [parse_header_links] gives them; any
    other header is taken to hold no link. *)
Definition teams_links (links_header : string) : list (gmap string string) :=
  if bool_decide (links_header = teams_link) then
    [ {[ "url" := teams_url_2; "rel" := "next" ]};
      {[ "url" := teams_url_2; "rel" := "last" ]} ]
  else [].

(** An admin's login, its userinfo response empty. *)
Definition admin_login : AuthModel :=
  mkAuthModel true (mkAuthState ∅ token).

(** [carol], who is on the allow-list, coming through an IdP that is not
    in the table. *)
Definition stranger_login : AuthModel :=
  mkAuthModel false
    (mkAuthState {[ "idp" := PyStr "https://idp.other.org/shibboleth";
                    "email" := PyStr "carol@other.org" ]} token).

(** GitHub as the one allowed IdP, nothing else restricted. *)
Definition github_open : CILogonOAuthenticator :=
  mkCILogonOAuthenticator "eppn" ["email"]
    {[ github_entity_id :=
         mkIdpPolicy (mkUsernameDerivation "username" None None None) None ]} ∅.

(** A linked identity without [eppn]. *)
Definition linked_user_info : gmap string pyval :=
  {[ "idp" := PyStr github_entity_id; "email" := PyStr "dave@uni.edu" ]}.

(** An e-mail address without a local part. *)
Definition headless_user_info : gmap string pyval :=
  {[ "idp" := PyStr uni_entity_id; "email" := PyStr "@uni.edu" ]}.

(** GitHub usernames prefixed with [gh]. *)
Definition github_prefixed : CILogonOAuthenticator :=
  mkCILogonOAuthenticator "eppn" ["email"]
    {[ github_entity_id :=
         mkIdpPolicy (mkUsernameDerivation "username" (Some "prefix") None (Some "gh"))
           None ]} ∅.

Definition alice_user_info : gmap string pyval :=
  {[ "idp" := PyStr github_entity_id; "username" := PyStr "alice" ]}.

(** A university IdP that serves two domains. *)
Definition two_domains_policy : IdpPolicy :=
  mkIdpPolicy
    (mkUsernameDerivation "email" (Some "strip_idp_domain") (Some "uni.edu") None)
    (Some ["uni.edu"; "lab.org"]).

Definition two_domains : CILogonOAuthenticator :=
  mkCILogonOAuthenticator "eppn" ["email"]
    {[ uni_entity_id := two_domains_policy ]} ∅.

Definition bob_lab_login : AuthModel :=
  mkAuthModel false
    (mkAuthState {[ "idp" := PyStr uni_entity_id; "email" := PyStr "bob@lab.org" ]}
       token).

(** The login handler's traits. *)
Definition two_shown : CILogonLoginHandler.Authenticator :=
  CILogonLoginHandler.mkAuthenticator [github_entity_id; uni_entity_id] "campus".

(** An environment of the old style. *)
Definition old_environ : gmap string string :=
  {[ "GITHUB_HOST" := "ghe.example.org"; "GITHUB_HTTP" := "1" ]}.

(** A teams page that names itself as the next page. *)
Definition loop_link : string :=
  "<https://api.github.com/user/teams?per_page=100>; rel=next".

Definition loop_server : list request → request → GitHub.response :=
  λ _ _, GitHub.mkResponse 200 (Some (JArr [JStr "team-1"])) (Some loop_link).

Definition loop_links (links_header : string) : list (gmap string string) :=
  if bool_decide (links_header = loop_link) then
    [ {[ "url" := teams_url; "rel" := "next" ]} ]
  else [].

(** The e-mail addresses of [alice], the second one primary, and the
    teams of [teams_server]. *)
Definition emails_url : string := "https://api.github.com/user/emails".

Definition account_server : list request → request → GitHub.response :=
  λ history rq,
    if bool_decide (req_url rq = emails_url) then
      GitHub.mkResponse 200
        (Some (JArr [ JObj [("email", JStr "alice@old.example"); ("primary", JBool false)];
                      JObj [("email", JStr "alice@uni.edu"); ("primary", JBool true)] ]))
        None
    else teams_server history rq.

(** A GitHub login whose public e-mail is hidden, with the scope to read
    it, and one whose e-mail is public. *)
Definition private_alice : GitHubUpdate.GitHubAuthModel :=
  GitHubUpdate.mkGitHubAuthModel false
    (GitHubUpdate.mkGitHubAuthState
       {[ "login" := JStr "alice"; "email" := JNull ]} token
       (Some ["read:org"; "user:email"]) None).

Definition public_alice : GitHubUpdate.GitHubAuthModel :=
  GitHubUpdate.mkGitHubAuthModel false
    (GitHubUpdate.mkGitHubAuthState
       {[ "login" := JStr "alice"; "email" := JStr "alice@uni.edu" ]} token
       (Some ["read:org"; "user:email"]) None).

Definition with_teams : GitHubUpdate.Traits :=
  GitHubUpdate.mkTraits true ["read:org"; "user:email"].

Definition without_teams : GitHubUpdate.Traits :=
  GitHubUpdate.mkTraits false ["user:email"].

(** The world after [alice] was found a member of [org-a], the second
    organization asked about. *)
Definition allowed_world : world :=
  mkWorld
    [mkRequest "https://api.github.com/orgs/org-c/members/alice" "GET"
       (userdata_headers "gho_token" "bearer");
     mkRequest "https://api.github.com/orgs/org-a/members/alice" "GET"
       (userdata_headers "gho_token" "bearer")]
    [LogCheckingMembership "alice" "org-c";
     LogNotMember "alice" "org-c" 404 (JStr "Not Found");
     LogCheckingMembership "alice" "org-a";
     LogAllowingMember "alice" "org-a"].

(** The world after the two pages of teams were fetched. *)
Definition fetched_world : world :=
  mkWorld
    [mkRequest teams_url "GET" (userdata_headers "gho_token" "bearer");
     mkRequest teams_url_2 "GET" (userdata_headers "gho_token" "bearer")]
    [].

Definition session0 : GitHubUpdate.session := GitHubUpdate.mkSession world0 [].

End Examples.

(** * Properties *)

(** ** Strings *)

Lemma partition_some (c : ascii) (s h t : string) :
  partition c s = (h, Some t) ↔ s = h +:+ String c t ∧ contains c h = false.
Proof.
  revert h. induction s as [|a s IH]; intros h; simpl.
  - split; [discriminate|]. intros [E _]. destruct h; discriminate.
  - destruct (Ascii.eqb_spec a c) as [->|Hne].
    + split.
      * intros [= <- <-]. done.
      * intros [E Hc]. destruct h as [|b h]; simpl in *.
        -- by injection E as ->.
        -- injection E as <- _. by rewrite Ascii.eqb_refl in Hc.
    + destruct (partition c s) as [h' t'] eqn:Hp. split.
      * intros [= <- ->]. destruct (IH h') as [[-> Hc] _]; [done|].
        simpl. split; [done|].
        destruct (Ascii.eqb_spec a c); [done|]. done.
      * intros [E Hc]. destruct h as [|b h]; simpl in *.
        -- by injection E as ->.
        -- injection E as <- ->.
           apply orb_false_elim in Hc as [_ Hc].
           destruct (IH h) as [_ IH']. specialize (IH' (conj eq_refl Hc)).
           congruence.
Qed.

Lemma partition_none (c : ascii) (s h : string) :
  partition c s = (h, None) ↔ h = s ∧ contains c s = false.
Proof.
  revert h. induction s as [|a s IH]; intros h; simpl.
  - split; [by intros [= <-]|by intros [-> _]].
  - destruct (Ascii.eqb_spec a c) as [->|Hne]; simpl.
    + split; [discriminate|]. by intros [_ ?].
    + destruct (partition c s) as [h' t'] eqn:Hp. split.
      * intros [= <- ->]. destruct (IH h') as [[-> Hc] _]; done.
      * intros [-> Hc]. destruct (IH s) as [_ IH'].
        specialize (IH' (conj eq_refl Hc)). congruence.
Qed.

Lemma partition_fst_clean (c : ascii) (s : string) :
  contains c (fst (partition c s)) = false.
Proof.
  destruct (partition c s) as [h [t|]] eqn:Hp; simpl.
  - by apply partition_some in Hp as [_ ?].
  - by apply partition_none in Hp as [-> ?].
Qed.

Lemma index_split1_0 (c : ascii) (s : string) :
  index (split1 c s) 0 = Ok (fst (partition c s)).
Proof. unfold split1. by destruct (partition c s) as [h [t|]]. Qed.

Lemma index_split1_1 (c : ascii) (s : string) :
  index (split1 c s) 1 =
    match snd (partition c s) with Some t => Ok t | None => Raise IndexError end.
Proof. unfold split1. by destruct (partition c s) as [h [t|]]. Qed.

#[global] Instance str_le_total : Total str_le.
Proof. intros a b. apply String.leb_total. Qed.

#[global] Instance str_le_trans : Transitive str_le.
Proof.
  unfold str_le, String.leb. intros a.
  induction a as [|x a IH]; intros [|y b] [|z c]; simpl; try done.
  unfold Ascii.compare.
  destruct (N.compare_spec (N_of_ascii x) (N_of_ascii y));
    destruct (N.compare_spec (N_of_ascii y) (N_of_ascii z));
    destruct (N.compare_spec (N_of_ascii x) (N_of_ascii z));
    try done; try lia.
  apply IH.
Qed.

(** ** The monad *)

Lemma bind_lift_ok {A B} (r : result A) (a : A) (k : A → M B) (w : world) :
  r = Ok a → bind (lift r) k w = k a w.
Proof. by intros ->. Qed.

Lemma bind_lift_raise {A B} (r : result A) (e : exn) (k : A → M B) (w : world) :
  r = Raise e → bind (lift r) k w = (Raise e, w).
Proof. by intros ->. Qed.

(** ** CILogon *)

Module CILogonFacts.
Import CILogon.

Section Facts.

Variable self : CILogonOAuthenticator.

Lemma username_claims_default :
  (if bool_decide (additional_username_claims self ≠ [])
   then [username_claim self] ++ additional_username_claims self
   else [username_claim self])
  = username_claim self :: additional_username_claims self.
Proof. case_bool_decide as H; [done|]. by rewrite H. Qed.

Lemma claim_list_matched (user_info : gmap string pyval) i policy :
  user_info !! "idp" = Some (PyStr i) →
  allowed_idps self !! i = Some policy →
  _get_final_username_claim_list self user_info
  = Ok [ud_username_claim (username_derivation policy)].
Proof.
  intros Hidp Hpol. unfold _get_final_username_claim_list, getitem.
  rewrite bool_decide_true; [|by intros E; rewrite E in Hpol].
  rewrite Hidp. simpl. by rewrite Hpol.
Qed.

Lemma claim_list_unmatched (user_info : gmap string pyval) v :
  user_info !! "idp" = Some v →
  lookup_idp self v = None →
  _get_final_username_claim_list self user_info
  = Ok (username_claim self :: additional_username_claims self).
Proof.
  intros Hidp Hpol. unfold _get_final_username_claim_list, getitem.
  rewrite username_claims_default, Hidp. simpl. rewrite Hpol.
  by case_bool_decide.
Qed.

Lemma claim_list_no_table (user_info : gmap string pyval) :
  allowed_idps self = ∅ →
  _get_final_username_claim_list self user_info
  = Ok (username_claim self :: additional_username_claims self).
Proof.
  intros E. unfold _get_final_username_claim_list.
  rewrite username_claims_default. by rewrite bool_decide_false by (by intros []).
Qed.

End Facts.

Lemma truthy_present (user_info : gmap string pyval) claim :
  truthy (dict_get user_info claim) = true
  ↔ ∃ s, present_nonempty user_info claim s.
Proof.
  unfold dict_get, present_nonempty. split.
  - destruct (user_info !! claim) as [[|s]|]; simpl; try done.
    intros H%bool_decide_eq_true. eauto.
  - intros (s & -> & Hs). simpl. by apply bool_decide_eq_true.
Qed.

Lemma username_loop_first (user_info : gmap string pyval) v0 pre claim post s :
  (∀ c, c ∈ pre → ¬ ∃ s', present_nonempty user_info c s') →
  present_nonempty user_info claim s →
  username_loop user_info v0 (pre ++ claim :: post) = PyStr s.
Proof.
  intros Hpre Hs. revert v0. induction pre as [|c pre IH]; intros v0; simpl.
  - assert (truthy (dict_get user_info claim) = true) as ->
      by (apply truthy_present; eauto).
    destruct Hs as [Hs _]. unfold dict_get. by rewrite Hs.
  - destruct (truthy (dict_get user_info c)) eqn:Hc.
    + exfalso. apply (Hpre c); [left|]. by apply truthy_present.
    + apply IH. intros c' Hc'. apply Hpre. by right.
Qed.

Lemma username_loop_none (user_info : gmap string pyval) v0 claims :
  truthy v0 = false →
  (∀ c, c ∈ claims → ¬ ∃ s', present_nonempty user_info c s') →
  truthy (username_loop user_info v0 claims) = false.
Proof.
  revert v0. induction claims as [|c claims IH]; intros v0 Hv0 Hall; simpl; [done|].
  destruct (truthy (dict_get user_info c)) eqn:Hc.
  - exfalso. apply (Hall c); [left|]. by apply truthy_present.
  - apply IH; [done|]. intros c' Hc'. apply Hall. by right.
Qed.

(** C2: the candidate list is the matched entry's [username_claim] alone
    when the [idp] claim is a key of [allowed_idps]; it is [username_claim]
    followed by [additional_username_claims] when the [idp] claim is not a
    key, or when no table is configured; and the username resolved from a
    candidate list is the value of its first claim that is present and
    non-empty (a falsy value when there is none). *)
Theorem username_resolution (self : CILogonOAuthenticator)
    (user_info : gmap string pyval) :
  (∀ i policy,
      user_info !! "idp" = Some (PyStr i) →
      allowed_idps self !! i = Some policy →
      _get_final_username_claim_list self user_info
      = Ok [ud_username_claim (username_derivation policy)])
  ∧ (∀ v,
      user_info !! "idp" = Some v →
      lookup_idp self v = None →
      _get_final_username_claim_list self user_info
      = Ok (username_claim self :: additional_username_claims self))
  ∧ (allowed_idps self = ∅ →
      _get_final_username_claim_list self user_info
      = Ok (username_claim self :: additional_username_claims self))
  ∧ (∀ pre claim post s,
      (∀ c, c ∈ pre → ¬ ∃ s', present_nonempty user_info c s') →
      present_nonempty user_info claim s →
      _get_username_from_claim_list user_info (pre ++ claim :: post) = PyStr s)
  ∧ (∀ claims,
      (∀ c, c ∈ claims → ¬ ∃ s', present_nonempty user_info c s') →
      truthy (_get_username_from_claim_list user_info claims) = false).
Proof.
  split_and!.
  - apply claim_list_matched.
  - apply claim_list_unmatched.
  - apply claim_list_no_table.
  - intros. by apply username_loop_first.
  - intros. by apply username_loop_none.
Qed.

(** C10: the validated scope list holds [openid]; it holds
    [org.cilogon.userinfo] when [allowed_idps] is not empty; the proposed
    scopes are kept, in their order, at the front, and nothing but these two
    scopes is added. *)
Theorem validate_scope_ensures (self : CILogonOAuthenticator)
    (proposal_value : list string) :
  "openid" ∈ _validate_scope self proposal_value
  ∧ (allowed_idps self ≠ ∅ →
     "org.cilogon.userinfo" ∈ _validate_scope self proposal_value)
  ∧ proposal_value `prefix_of` _validate_scope self proposal_value
  ∧ (∀ s, s ∈ _validate_scope self proposal_value →
       s ∈ proposal_value ∨ s = "openid" ∨ s = "org.cilogon.userinfo").
Proof.
  unfold _validate_scope.
  set (scopes := if bool_decide ("openid" ∉ proposal_value)
                 then proposal_value ++ ["openid"] else proposal_value).
  assert ("openid" ∈ scopes) as Hopen.
  { unfold scopes. case_bool_decide as H; [set_solver|done]. }
  assert (proposal_value `prefix_of` scopes) as Hpre.
  { unfold scopes. case_bool_decide; [by apply prefix_app_r|done]. }
  assert (∀ s, s ∈ scopes → s ∈ proposal_value ∨ s = "openid") as Hin.
  { unfold scopes. intros s. case_bool_decide; set_solver. }
  split_and!.
  - destruct (_ && _); set_solver.
  - intros Hne. rewrite (bool_decide_true _ Hne). simpl.
    case_bool_decide as H; [set_solver|done].
  - destruct (_ && _); [|done]. etrans; [done|]. by apply prefix_app_r.
  - intros s. destruct (_ && _); [|naive_solver].
    rewrite elem_of_app, list_elem_of_singleton. naive_solver.
Qed.

Lemma sorted_keys_sorted (user_info : gmap string pyval) :
  StronglySorted str_le (sorted_keys user_info).
Proof. apply (StronglySorted_merge_sort str_le). Qed.

Lemma sorted_keys_elem (user_info : gmap string pyval) (k : string) :
  k ∈ sorted_keys user_info ↔ is_Some (user_info !! k).
Proof.
  unfold sorted_keys. rewrite (merge_sort_Permutation str_le).
  by rewrite elem_of_elements, elem_of_dom.
Qed.

Lemma sorted_keys_NoDup (user_info : gmap string pyval) :
  NoDup (sorted_keys user_info).
Proof.
  unfold sorted_keys. rewrite (merge_sort_Permutation str_le).
  apply NoDup_elements.
Qed.

(** C7: when no candidate claim is present with a non-empty value, the
    username derivation raises the 500 error, having logged the attempted
    claim list and the sorted names of the claims received (the names
    alone: the entry is the same for any other claim values under the same
    names); no username is returned. *)
Theorem username_not_found (self : CILogonOAuthenticator)
    (user_info : gmap string pyval) (username_claims : list string) (w : world) :
  _get_final_username_claim_list self user_info = Ok username_claims →
  (∀ c, c ∈ username_claims → ¬ ∃ s, present_nonempty user_info c s) →
  user_info_to_username self user_info w
  = (Raise (HTTPError 500 "Failed to get username from CILogon"),
     mkWorld (requests w)
       (log w ++ [LogNoUsernameClaim username_claims (sorted_keys user_info)]))
  ∧ StronglySorted str_le (sorted_keys user_info)
  ∧ NoDup (sorted_keys user_info)
  ∧ (∀ k, k ∈ sorted_keys user_info ↔ is_Some (user_info !! k))
  ∧ (∀ user_info' : gmap string pyval,
       dom user_info' = dom user_info →
       sorted_keys user_info' = sorted_keys user_info).
Proof.
  intros Hclaims Hnone. split_and!.
  - unfold user_info_to_username.
    rewrite (bind_lift_ok _ username_claims) by done.
    pose proof (username_loop_none user_info PyNone username_claims eq_refl Hnone) as Hf.
    unfold _get_username_from_claim_list.
    destruct (username_loop user_info PyNone username_claims) as [|s]; [done|].
    simpl in Hf. apply bool_decide_eq_false in Hf. apply dec_stable in Hf.
    by rewrite bool_decide_true.
  - apply sorted_keys_sorted.
  - apply sorted_keys_NoDup.
  - apply sorted_keys_elem.
  - intros ui' E. unfold sorted_keys. by rewrite E.
Qed.

Lemma resolve_single (user_info : gmap string pyval) claim v :
  present_nonempty user_info claim v →
  _get_username_from_claim_list user_info [claim] = PyStr v.
Proof.
  intros H. unfold _get_username_from_claim_list.
  apply (username_loop_first user_info PyNone [] claim [] v); [|done].
  intros c Hc. by apply elem_of_nil in Hc.
Qed.

(** The username derivation for a matched IdP whose claim resolves to the
    non-empty value [v]: the three branches on [action]. *)
Lemma user_info_to_username_matched (self : CILogonOAuthenticator)
    (user_info : gmap string pyval) i policy v (w : world) :
  user_info !! "idp" = Some (PyStr i) →
  allowed_idps self !! i = Some policy →
  present_nonempty user_info (ud_username_claim (username_derivation policy)) v →
  user_info_to_username self user_info w
  = if bool_decide (ud_action (username_derivation policy) = Some "strip_idp_domain")
    then (Ok (fst (partition "@" v)), w)
    else if bool_decide (ud_action (username_derivation policy) = Some "prefix")
    then match ud_prefix (username_derivation policy) with
         | Some prefix => (Ok (prefix +:+ ":" +:+ v), w)
         | None => (Raise (KeyError "prefix"), w)
         end
    else (Ok v, w).
Proof.
  intros Hidp Hpol Hv. unfold user_info_to_username.
  rewrite (bind_lift_ok _ _ _ _ (claim_list_matched self user_info i policy Hidp Hpol)).
  rewrite (resolve_single _ _ _ Hv).
  destruct Hv as [_ Hne]. rewrite (bool_decide_false _ Hne).
  rewrite bool_decide_true by (by intros E; rewrite E in Hpol).
  unfold getitem. rewrite Hidp. unfold bind at 1, lift at 1. simpl. rewrite Hpol.
  case_bool_decide; [|case_bool_decide].
  - unfold bind, lift, ret. by rewrite index_split1_0.
  - by destruct (ud_prefix _).
  - done.
Qed.

(** C9: for a matched IdP rule and a resolved value [v], the action
    [strip_idp_domain] gives the part of [v] before its first [@] ([v]
    itself when it has none; stripping a stripped value changes nothing;
    the configured [domain] plays no part), the action [prefix] gives
    [prefix:v], and no action gives [v]. *)
Theorem username_transformation (self : CILogonOAuthenticator)
    (user_info : gmap string pyval) i policy v (w : world) :
  user_info !! "idp" = Some (PyStr i) →
  allowed_idps self !! i = Some policy →
  present_nonempty user_info (ud_username_claim (username_derivation policy)) v →
  let d := username_derivation policy in
  let r := user_info_to_username self user_info w in
  (ud_action d = Some "strip_idp_domain" →
     ∃ u, r = (Ok u, w)
       ∧ contains "@" u = false
       ∧ ((contains "@" v = false ∧ u = v) ∨ (∃ t, v = u +:+ String "@" t))
       ∧ (∀ user_info' : gmap string pyval,
            user_info' !! "idp" = Some (PyStr i) →
            present_nonempty user_info' (ud_username_claim d) u →
            user_info_to_username self user_info' w = (Ok u, w))
       ∧ (∀ domain',
            let policy' :=
              mkIdpPolicy
                (mkUsernameDerivation (ud_username_claim d) (ud_action d)
                   domain' (ud_prefix d))
                (allowed_domains policy) in
            let self' :=
              mkCILogonOAuthenticator (username_claim self)
                (additional_username_claims self)
                (<[i:=policy']> (allowed_idps self)) (allowed_users self) in
            user_info_to_username self' user_info w = (Ok u, w)))
  ∧ (ud_action d = Some "prefix" →
     ∀ prefix, ud_prefix d = Some prefix →
       r = (Ok (prefix +:+ ":" +:+ v), w))
  ∧ (ud_action d = None → r = (Ok v, w)).
Proof.
  intros Hidp Hpol Hv d r. unfold r.
  rewrite (user_info_to_username_matched self user_info i policy v w Hidp Hpol Hv).
  fold d. split_and!.
  - intros Ha. rewrite bool_decide_true by done.
    exists (fst (partition "@" v)). split_and!.
    + done.
    + apply partition_fst_clean.
    + destruct (partition "@" v) as [h [t|]] eqn:Hp; simpl.
      * right. exists t. by apply partition_some in Hp as [? _].
      * left. by apply partition_none in Hp as [-> ?].
    + intros ui' Hidp' Hu.
      rewrite (user_info_to_username_matched self ui' i policy _ w Hidp' Hpol Hu).
      fold d. rewrite bool_decide_true by done.
      pose proof (partition_fst_clean "@" v) as Hc.
      destruct (partition "@" (fst (partition "@" v))) as [h' [t'|]] eqn:Hp'.
      -- apply partition_some in Hp' as [E Hh].
         rewrite E in Hc. exfalso. clear -Hc.
         induction h' as [|a h' IH]; simpl in Hc.
         ++ done.
         ++ apply orb_false_elim in Hc as [_ Hc]. by apply IH.
      -- by apply partition_none in Hp' as [-> _].
    + intros domain'. cbv zeta.
      erewrite (user_info_to_username_matched _ user_info i _ v w);
        [|done|by (simpl; rewrite lookup_insert_eq)|done].
      simpl. by rewrite bool_decide_true.
  - intros Ha prefix Hp. rewrite Ha, Hp. done.
  - intros Ha. rewrite Ha. done.
Qed.

(** [check_allowed] for a login that is not an admin's and whose IdP is a
    key of [allowed_idps]: the decision of lines 351-370. *)
Lemma check_allowed_matched (self : CILogonOAuthenticator) username am i policy
    (w : world) :
  admin am = false →
  user (auth_state am) !! "idp" = Some (PyStr i) →
  allowed_idps self !! i = Some policy →
  check_allowed self username (Some am) w
  = if bool_decide (allowed_users self ≠ ∅)
       || domains_configured (allowed_domains policy)
    then
      if bool_decide (username ∈ allowed_users self) then (Ok true, w)
      else if domains_configured (allowed_domains policy) then
        match _get_username_from_claim_list (user (auth_state am))
                [ud_username_claim (username_derivation policy)] with
        | PyNone => (Raise AttributeError, w)
        | PyStr u =>
            match snd (partition "@" u) with
            | None => (Raise IndexError, w)
            | Some user_domain =>
                if bool_decide (user_domain ∈ default [] (allowed_domains policy))
                then (Ok true, w)
                else (Raise (HTTPError 403
                        "Trying to login using a domain that was not allowed"), w)
            end
        end
      else (Ok false, w)
    else (Ok true, w).
Proof.
  intros Hadm Hidp Hpol. unfold check_allowed. rewrite Hadm.
  rewrite bool_decide_true by (by intros E; rewrite E in Hpol).
  unfold getitem. rewrite Hidp. unfold bind at 1, lift at 1. simpl. rewrite Hpol.
  destruct (_ || _); [|done].
  case_bool_decide; [done|].
  destruct (domains_configured _); [|done].
  rewrite (bind_lift_ok _ _ _ _ (claim_list_matched self _ i policy Hidp Hpol)).
  destruct (_get_username_from_claim_list _ _) as [|u]; [done|].
  unfold pyval_split1. unfold bind at 1, lift at 1.
  unfold bind at 1, lift at 1. rewrite index_split1_1.
  destruct (snd (partition "@" u)); [|done].
  by case_bool_decide.
Qed.

(** The precedence of the allow-list over the domain check, where the
    domain check has an answer: for a login (not an admin's) whose IdP is a
    key of [allowed_idps], with an allow-list of usernames or the IdP's
    [allowed_domains] configured: a username on the allow-list is allowed
    whatever the claims say about its domain; otherwise, with
    [allowed_domains] configured, the login is allowed exactly when the text
    after the first [@] of the username resolved anew from the candidate
    claim list is among them, and denied with the 403 of the domain when
    there is such a text and it is not among them; with the allow-list
    alone, the login is denied. *)
Theorem check_allowed_precedence (self : CILogonOAuthenticator)
    (username : string) (am : AuthModel) i policy (w : world) :
  admin am = false →
  user (auth_state am) !! "idp" = Some (PyStr i) →
  allowed_idps self !! i = Some policy →
  allowed_users self ≠ ∅ ∨ domains_configured (allowed_domains policy) = true →
  let user_info := user (auth_state am) in
  let r := check_allowed self username (Some am) w in
  (username ∈ allowed_users self → r = (Ok true, w))
  ∧ (username ∉ allowed_users self →
     ∀ domains, allowed_domains policy = Some domains → domains ≠ [] →
       ∃ username_claims,
         _get_final_username_claim_list self user_info = Ok username_claims
         ∧ let username_with_domain :=
             _get_username_from_claim_list user_info username_claims in
           (r = (Ok true, w) ↔
              ∃ h d, username_with_domain = PyStr (h +:+ String "@" d)
                     ∧ contains "@" h = false ∧ d ∈ domains)
           ∧ (∀ h d, username_with_domain = PyStr (h +:+ String "@" d) →
                contains "@" h = false → d ∉ domains →
                r = (Raise (HTTPError 403
                       "Trying to login using a domain that was not allowed"), w)))
  ∧ (username ∉ allowed_users self →
     domains_configured (allowed_domains policy) = false →
     r = (Ok false, w)).
Proof.
  intros Hadm Hidp Hpol Hconf user_info r. unfold r.
  rewrite (check_allowed_matched self username am i policy w Hadm Hidp Hpol).
  assert (bool_decide (allowed_users self ≠ ∅)
          || domains_configured (allowed_domains policy) = true) as ->.
  { destruct Hconf as [H| ->]; [|by rewrite orb_true_r].
    by rewrite (bool_decide_true _ H). }
  split_and!.
  - intros Hin. by rewrite bool_decide_true.
  - intros Hnin domains Hdom Hne.
    rewrite (bool_decide_false _ Hnin).
    assert (domains_configured (allowed_domains policy) = true) as ->.
    { rewrite Hdom. by destruct domains. }
    exists [ud_username_claim (username_derivation policy)].
    split; [by apply (claim_list_matched self _ i policy)|].
    cbv zeta. fold user_info. rewrite Hdom. simpl.
    destruct (_get_username_from_claim_list _ _) as [|u].
    { split; [split; [done|by intros (? & ? & ? & _)]|done]. }
    destruct (partition "@" u) as [h0 [d0|]] eqn:Hp; simpl.
    + apply partition_some in Hp as [-> Hh0].
      assert (∀ h d, PyStr (h0 +:+ String "@" d0) = PyStr (h +:+ String "@" d) →
                     contains "@" h = false → d = d0) as Huniq.
      { intros h d [= E] Hh.
        assert (partition "@" (h0 +:+ String "@" d0) = (h0, Some d0)) as P1
          by (by apply partition_some).
        assert (partition "@" (h0 +:+ String "@" d0) = (h, Some d)) as P2
          by (by apply partition_some).
        congruence. }
      case_bool_decide as Hd.
      * split; [|intros h d E Hh Hnd; by rewrite (Huniq h d E Hh) in Hnd].
        split; [|done]. intros _. by exists h0, d0.
      * split; [|done]. split; [done|].
        intros (h & d & E & Hh & Hdin). by rewrite (Huniq h d E Hh) in Hdin.
    + apply partition_none in Hp as [-> Hc].
      assert (∀ h d, PyStr u = PyStr (h +:+ String "@" d) → False) as Hno.
      { intros h d [= ->]. clear -Hc. induction h as [|a h IH]; simpl in Hc.
        - done.
        - apply orb_false_elim in Hc as [_ Hc]. by apply IH. }
      split; [split; [done|]|].
      * intros (h & d & E & _). by destruct (Hno h d).
      * intros h d E. by destruct (Hno h d).
  - intros Hnin Hnd. rewrite (bool_decide_false _ Hnin). by rewrite Hnd.
Qed.

(** The domain check on a resolved value without [@]: the second piece of
    the split is not there. *)
Lemma check_allowed_no_at (self : CILogonOAuthenticator) username am i policy u
    (w : world) :
  admin am = false →
  user (auth_state am) !! "idp" = Some (PyStr i) →
  allowed_idps self !! i = Some policy →
  username ∉ allowed_users self →
  domains_configured (allowed_domains policy) = true →
  _get_username_from_claim_list (user (auth_state am))
    [ud_username_claim (username_derivation policy)] = PyStr u →
  contains "@" u = false →
  check_allowed self username (Some am) w = (Raise IndexError, w).
Proof.
  intros Hadm Hidp Hpol Hnin Hdom Hu Hc.
  rewrite (check_allowed_matched self username am i policy w Hadm Hidp Hpol).
  rewrite Hdom, orb_true_r, (bool_decide_false _ Hnin), Hu.
  destruct (partition "@" u) as [h [t|]] eqn:Hp; [|done].
  apply partition_some in Hp as [-> _]. exfalso. clear -Hc.
  induction h as [|a h IH]; simpl in Hc; [done|].
  apply orb_false_elim in Hc as [_ Hc]. by apply IH.
Qed.

(** A userinfo response without the [idp] claim, a table being
    configured. *)
Lemma check_allowed_no_idp (self : CILogonOAuthenticator) username am (w : world) :
  admin am = false →
  allowed_idps self ≠ ∅ →
  user (auth_state am) !! "idp" = None →
  check_allowed self username (Some am) w = (Raise (KeyError "idp"), w).
Proof.
  intros Hadm Hne Hidp. unfold check_allowed.
  rewrite Hadm, (bool_decide_true _ Hne).
  unfold getitem. by rewrite Hidp.
Qed.

(** C1: the domain check on a username without [@].  This login is
    through an IdP that is a key of [allowed_idps], its policy has
    [allowed_domains] configured, the user is no admin and is not on the
    allow-list, and the username resolved anew from the candidate claim
    list, [alice], holds no [@]: no text after an [@] is among the allowed
    domains.  [check_allowed] does not deny with the 403 of the domain, as
    the claim has it: the [IndexError] of [split('@', 1)[1]] leaves it. *)
Theorem check_allowed_domain_check_raises :
  let self := Examples.github_idp_only in
  let am := Examples.alice_login in
  let user_info := user (auth_state am) in
  let r := check_allowed self "alice" (Some am) world0 in
  admin am = false
  ∧ user_info !! "idp" = Some (PyStr Examples.github_entity_id)
  ∧ allowed_idps self !! Examples.github_entity_id = Some Examples.github_policy
  ∧ allowed_domains Examples.github_policy = Some ["uni.edu"]
  ∧ ("alice" ∉ allowed_users self)
  ∧ _get_final_username_claim_list self user_info = Ok ["username"]
  ∧ _get_username_from_claim_list user_info ["username"] = PyStr "alice"
  ∧ (∀ h d, "alice" ≠ h +:+ String "@" d)
  ∧ r = (Raise IndexError, world0)
  ∧ r ≠ (Raise (HTTPError 403
           "Trying to login using a domain that was not allowed"), world0)
  ∧ (∀ b, r ≠ (Ok b, world0)).
Proof.
  cbv zeta.
  assert (check_allowed Examples.github_idp_only "alice"
            (Some Examples.alice_login) world0 = (Raise IndexError, world0))
    as Hr by (by vm_compute).
  split_and!.
  - reflexivity.
  - vm_compute. reflexivity.
  - vm_compute. reflexivity.
  - reflexivity.
  - apply not_elem_of_empty.
  - vm_compute. reflexivity.
  - vm_compute. reflexivity.
  - intros h d H.
    assert (contains "@" (h +:+ String "@" d) = true) as Hat.
    { clear H. induction h as [|x h IH]; simpl; [done|].
      by rewrite IH, orb_true_r. }
    rewrite <-H in Hat. discriminate Hat.
  - exact Hr.
  - rewrite Hr. discriminate.
  - intros b. rewrite Hr. discriminate.
Qed.

(** C6: a login through an IdP with [allowed_domains] whose username claim
    holds no [@] leaves [check_allowed] with an [IndexError], and a
    userinfo response without the [idp] claim leaves it with a [KeyError];
    neither is one of the decisions. *)
Theorem check_allowed_faults :
  check_allowed Examples.github_idp_only "alice" (Some Examples.alice_login) world0
  = (Raise IndexError, world0)
  ∧ ¬ is_decision (Raise IndexError)
  ∧ check_allowed Examples.github_idp_only "alice" (Some Examples.no_idp_login) world0
    = (Raise (KeyError "idp"), world0)
  ∧ ¬ is_decision (Raise (KeyError "idp")).
Proof. split_and!; [by vm_compute|by intros []|by vm_compute|by intros []]. Qed.

Section ValidationFacts.

Variable urlparse_scheme : string → option string.
Variable schema_valid : IdpPolicy → bool.

Lemma item_ok_dec entity_id policy :
  Decision (item_ok urlparse_scheme schema_valid entity_id policy).
Proof.
  unfold item_ok. destruct (urlparse_scheme entity_id) as [scheme|].
  - destruct (decide (schema_valid policy = true
                      ∧ scheme ∈ accepted_entity_id_scheme)) as [H|H].
    + left. destruct H. eauto.
    + right. intros [Hs (s & [= <-] & Hin)]. by apply H.
  - right. by intros [_ (s & ? & _)].
Defined.

Lemma validate_item_ok entity_id policy (w : world) :
  item_ok urlparse_scheme schema_valid entity_id policy →
  validate_item urlparse_scheme schema_valid (entity_id, policy) w = (Ok tt, w).
Proof.
  intros [Hs (scheme & Hp & Hk)]. unfold validate_item. rewrite Hs, Hp.
  by rewrite bool_decide_false by (intros H; by apply H).
Qed.

(** The four ways through the body of the loop. *)
Lemma validate_item_cases entity_id policy (w : world) :
  let r := validate_item urlparse_scheme schema_valid (entity_id, policy) w in
  (item_ok urlparse_scheme schema_valid entity_id policy ∧ r = (Ok tt, w))
  ∨ (schema_valid policy = false ∧ r = (Raise ValidationError, w))
  ∨ (schema_valid policy = true ∧ urlparse_scheme entity_id = None
     ∧ r = (Raise ValueError, w))
  ∨ (schema_valid policy = true
     ∧ ∃ scheme, urlparse_scheme entity_id = Some scheme
         ∧ (scheme ∉ accepted_entity_id_scheme)
         ∧ r = (Raise ValueError,
                mkWorld (requests w) (log w ++ [LogInvalidEntityId entity_id]))).
Proof.
  cbv zeta. unfold validate_item, item_ok.
  destruct (schema_valid policy) eqn:Hs; [|by right; left].
  destruct (urlparse_scheme entity_id) as [scheme|] eqn:Hp;
    [|by right; right; left].
  case_bool_decide as Hk.
  - right; right; right. split; [done|]. by exists scheme.
  - left. split; [|done]. split; [done|]. exists scheme. split; [done|].
    by destruct (decide (scheme ∈ accepted_entity_id_scheme)).
Qed.

Lemma validate_item_bad entity_id policy (w : world) :
  ¬ item_ok urlparse_scheme schema_valid entity_id policy →
  ∃ e w', validate_item urlparse_scheme schema_valid (entity_id, policy) w
          = (Raise e, w')
          ∧ (e = ValueError ∨ e = ValidationError).
Proof.
  intros Hbad.
  destruct (validate_item_cases entity_id policy w)
    as [[Hok _]|[[_ ->]|[(_ & _ & ->)|(_ & scheme & _ & _ & ->)]]];
    [done|eauto..].
Qed.

Lemma validate_items_ok items (w : world) :
  Forall (uncurry (item_ok urlparse_scheme schema_valid)) items →
  validate_items urlparse_scheme schema_valid items w = (Ok tt, w).
Proof.
  induction 1 as [|[k p] items Hkp _ IH]; cbn [validate_items]; [done|].
  unfold bind. by rewrite (validate_item_ok k p w Hkp).
Qed.

Lemma validate_items_bad items (w : world) :
  ¬ Forall (uncurry (item_ok urlparse_scheme schema_valid)) items →
  ∃ e w', validate_items urlparse_scheme schema_valid items w = (Raise e, w')
          ∧ (e = ValueError ∨ e = ValidationError).
Proof.
  induction items as [|[k p] items IH]; intros Hbad.
  - by destruct Hbad.
  - cbn [validate_items]. unfold bind.
    destruct (item_ok_dec k p) as [Hkp|Hkp].
    + rewrite (validate_item_ok k p w Hkp). apply IH.
      intros Hall. apply Hbad. by constructor.
    + destruct (validate_item_bad k p w Hkp) as (e & w' & -> & He). eauto.
Qed.

(** The loop stops at the first item that is not in order, and with the
    outcome of that item. *)
Lemma validate_items_first items e (w w' : world) :
  validate_items urlparse_scheme schema_valid items w = (Raise e, w') →
  ∃ before entity_id policy after,
    items = before ++ (entity_id, policy) :: after
    ∧ Forall (uncurry (item_ok urlparse_scheme schema_valid)) before
    ∧ validate_item urlparse_scheme schema_valid (entity_id, policy) w
      = (Raise e, w').
Proof.
  induction items as [|[k p] items IH]; [discriminate|].
  cbn [validate_items]. unfold bind.
  destruct (validate_item urlparse_scheme schema_valid (k, p) w)
    as [[[]|e0] w0] eqn:Hitem.
  - destruct (validate_item_cases k p w)
      as [[Hok Hr]|[[_ Hr]|[(_ & _ & Hr)|(_ & scheme & _ & _ & Hr)]]];
      cbv zeta in Hr; rewrite Hitem in Hr; try discriminate.
    injection Hr as ->. intros Hrest.
    destruct (IH Hrest) as (before & k' & p' & after & -> & Hall & Hrun).
    exists ((k, p) :: before), k', p', after. split_and!; [done| |done].
    by constructor.
  - intros [= -> ->]. exists [], k, p, items. by split_and!.
Qed.

End ValidationFacts.

(** C8, as the code has it: the proposed table is accepted exactly when
    every entry passes the schema and has a key that parses with the scheme
    [urn], [https] or [http]; an entry with a key of another scheme, the
    empty scheme of a bare domain name among them, makes the validation
    raise, whatever the other entries are; an accepted table is returned as
    it was proposed. *)
Theorem validate_allowed_idps_accepts (urlparse_scheme : string → option string)
    (schema_valid : IdpPolicy → bool)
    (proposal_value : list (string * IdpPolicy)) (w : world) :
  let r := _validate_allowed_idps urlparse_scheme schema_valid proposal_value w in
  (r = (Ok proposal_value, w) ↔
     ∀ entity_id policy, (entity_id, policy) ∈ proposal_value →
       schema_valid policy = true
       ∧ ∃ scheme, urlparse_scheme entity_id = Some scheme
                   ∧ scheme ∈ accepted_entity_id_scheme)
  ∧ (∀ entity_id policy, (entity_id, policy) ∈ proposal_value →
       (∀ scheme, urlparse_scheme entity_id = Some scheme →
                  scheme ∉ accepted_entity_id_scheme) →
       ∃ e w', r = (Raise e, w') ∧ (e = ValueError ∨ e = ValidationError))
  ∧ (∀ entity_id policy, (entity_id, policy) ∈ proposal_value →
       urlparse_scheme entity_id = Some "" →
       ∃ e w', r = (Raise e, w') ∧ (e = ValueError ∨ e = ValidationError))
  ∧ (∀ idps w', r = (Ok idps, w') → idps = proposal_value ∧ w' = w).
Proof.
  intros r.
  pose (good := Forall (uncurry (item_ok urlparse_scheme schema_valid))
                  proposal_value).
  assert (good ↔
          ∀ entity_id policy, (entity_id, policy) ∈ proposal_value →
            item_ok urlparse_scheme schema_valid entity_id policy) as Hall.
  { unfold good. rewrite Forall_forall. split.
    - intros H k p Hk. apply (H (k, p) Hk).
    - intros H [k p] Hk. by apply H. }
  assert (good → r = (Ok proposal_value, w)) as Hgood.
  { intros Hg. unfold r, _validate_allowed_idps, bind.
    by rewrite validate_items_ok. }
  assert (¬ good →
          ∃ e w', r = (Raise e, w') ∧ (e = ValueError ∨ e = ValidationError))
    as Hbad.
  { intros Hg. unfold r, _validate_allowed_idps, bind.
    by destruct (validate_items_bad urlparse_scheme schema_valid
                   proposal_value w Hg) as (e & w' & -> & He); eauto. }
  assert (Decision good) as Hdec.
  { unfold good. apply Forall_dec. intros [k p]. apply item_ok_dec. }
  assert (∀ entity_id policy, (entity_id, policy) ∈ proposal_value →
            (∀ scheme, urlparse_scheme entity_id = Some scheme →
                       scheme ∉ accepted_entity_id_scheme) →
            ∃ e w', r = (Raise e, w') ∧ (e = ValueError ∨ e = ValidationError))
    as Hkey.
  { intros k p Hk Hs. apply Hbad. intros Hg.
    destruct (proj1 Hall Hg k p Hk) as [_ (scheme & Hp & Hin)].
    by apply (Hs scheme Hp). }
  split_and!.
  - split.
    + intros Hr. destruct Hdec as [Hg|Hg]; [by apply Hall|].
      destruct (Hbad Hg) as (e & w' & Hr' & _). congruence.
    + intros H. by apply Hgood, Hall.
  - done.
  - intros k p Hk Hs. apply (Hkey k p Hk). intros scheme. rewrite Hs.
    intros [= <-]. unfold accepted_entity_id_scheme. set_solver.
  - intros idps w' Hr. destruct Hdec as [Hg|Hg].
    + rewrite (Hgood Hg) in Hr. by injection Hr as <- <-.
    + destruct (Hbad Hg) as (e & w'' & Hr' & _). congruence.
Qed.

(** C8, as the claim has it, fails: every key of this table parses with
    the scheme [https], and the table is rejected, its entry asking for a
    prefix and naming none. *)
Lemma validate_allowed_idps_not_keys_alone :
  let r := _validate_allowed_idps py_urlparse_scheme cilogon_schema
             Examples.prefix_without_prefix world0 in
  (∀ entity_id policy,
     (entity_id, policy) ∈ Examples.prefix_without_prefix →
     py_urlparse_scheme entity_id = Some "https")
  ∧ r = (Raise ValidationError, world0)
  ∧ ¬ (r = (Ok Examples.prefix_without_prefix, world0) ↔
       ∀ entity_id policy,
         (entity_id, policy) ∈ Examples.prefix_without_prefix →
         ∃ scheme, py_urlparse_scheme entity_id = Some scheme
                   ∧ scheme ∈ accepted_entity_id_scheme).
Proof.
  assert (∀ entity_id policy,
     (entity_id, policy) ∈ Examples.prefix_without_prefix →
     py_urlparse_scheme entity_id = Some "https") as Hkeys.
  { intros k p Hk. unfold Examples.prefix_without_prefix in Hk.
    apply list_elem_of_singleton in Hk as [= -> _]. by vm_compute. }
  cbv zeta. split_and!; [done|by vm_compute|].
  intros [_ H]. assert (_validate_allowed_idps py_urlparse_scheme cilogon_schema
             Examples.prefix_without_prefix world0
           = (Ok Examples.prefix_without_prefix, world0)) as Hr.
  { apply H. intros k p Hk. exists "https". split; [by apply (Hkeys k p)|].
    unfold accepted_entity_id_scheme. set_solver. }
  by vm_compute in Hr.
Qed.

(** *** The theorems at the example configurations *)

Lemma username_resolution_witness :
  _get_final_username_claim_list Examples.uni_only Examples.bob_user_info
  = Ok ["email"]
  ∧ _get_final_username_claim_list Examples.no_table Examples.nameless_user_info
    = Ok ["eppn"; "email"]
  ∧ _get_username_from_claim_list Examples.bob_user_info ["eppn"; "email"]
    = PyStr "bob@uni.edu".
Proof.
  split; [|split].
  - refine (proj1 (username_resolution Examples.uni_only Examples.bob_user_info)
              Examples.uni_entity_id Examples.uni_policy _ _);
      vm_compute; reflexivity.
  - refine (proj1 (proj2 (proj2
              (username_resolution Examples.no_table Examples.nameless_user_info))) _).
    reflexivity.
  - refine (proj1 (proj2 (proj2 (proj2
              (username_resolution Examples.uni_only Examples.bob_user_info))))
              ["eppn"] "email" [] "bob@uni.edu" _ _).
    + intros c Hc (s & Hs & _).
      apply list_elem_of_singleton in Hc. rewrite Hc in Hs.
      vm_compute in Hs. discriminate.
    + split; [vm_compute; reflexivity|discriminate].
Defined.

Lemma validate_scope_ensures_witness :
  "openid" ∈ _validate_scope Examples.uni_only ["email"]
  ∧ "org.cilogon.userinfo" ∈ _validate_scope Examples.uni_only ["email"].
Proof.
  split.
  - exact (proj1 (validate_scope_ensures Examples.uni_only ["email"])).
  - refine (proj1 (proj2 (validate_scope_ensures Examples.uni_only ["email"])) _).
    intros E. apply (f_equal (lookup Examples.uni_entity_id)) in E.
    vm_compute in E. discriminate.
Defined.

Lemma username_not_found_witness :
  user_info_to_username Examples.no_table Examples.nameless_user_info world0
  = (Raise (HTTPError 500 "Failed to get username from CILogon"),
     mkWorld [] [LogNoUsernameClaim ["eppn"; "email"] ["email"; "idp"; "name"]]).
Proof.
  refine (proj1 (username_not_found Examples.no_table Examples.nameless_user_info
                   ["eppn"; "email"] world0 _ _)).
  - reflexivity.
  - intros c Hc (s & Hs & Hne).
    apply elem_of_cons in Hc as [Hc|Hc];
      [|apply list_elem_of_singleton in Hc]; rewrite Hc in Hs; vm_compute in Hs.
    + discriminate.
    + injection Hs as Hs. symmetry in Hs. contradiction.
Defined.

Lemma username_transformation_witness :
  ∃ u, user_info_to_username Examples.uni_only Examples.bob_user_info world0
       = (Ok u, world0)
     ∧ contains "@" u = false
     ∧ "bob@uni.edu" = u +:+ String "@" "uni.edu".
Proof.
  destruct (proj1 (username_transformation Examples.uni_only
                     Examples.bob_user_info Examples.uni_entity_id
                     Examples.uni_policy "bob@uni.edu" world0
                     ltac:(vm_compute; reflexivity) ltac:(vm_compute; reflexivity)
                     ltac:(split; [vm_compute; reflexivity|discriminate]))
              eq_refl) as (u & Hu & Hc & _).
  exists u. split; [exact Hu|]. split; [exact Hc|].
  assert (user_info_to_username Examples.uni_only Examples.bob_user_info world0
          = (Ok "bob", world0)) as E by (vm_compute; reflexivity).
  rewrite E in Hu. injection Hu as <-. reflexivity.
Defined.

Lemma check_allowed_precedence_witness :
  check_allowed Examples.uni_only "carol" (Some Examples.carol_login) world0
  = (Ok true, world0)
  ∧ check_allowed Examples.uni_only "bob" (Some Examples.bob_login) world0
    = (Ok true, world0)
  ∧ check_allowed Examples.uni_only "mallory" (Some Examples.mallory_login) world0
    = (Raise (HTTPError 403
         "Trying to login using a domain that was not allowed"), world0).
Proof.
  split; [|split].
  - refine (proj1 (check_allowed_precedence Examples.uni_only "carol"
                     Examples.carol_login Examples.uni_entity_id
                     Examples.uni_policy world0 _ _ _ _) _).
    + reflexivity.
    + vm_compute. reflexivity.
    + vm_compute. reflexivity.
    + right. reflexivity.
    + vm_compute. reflexivity.
  - destruct (proj1 (proj2 (check_allowed_precedence Examples.uni_only "bob"
                     Examples.bob_login Examples.uni_entity_id
                     Examples.uni_policy world0 eq_refl
                     ltac:(vm_compute; reflexivity) ltac:(vm_compute; reflexivity)
                     ltac:(right; reflexivity)))
                ltac:(vm_compute; discriminate) ["uni.edu"] eq_refl
                ltac:(discriminate))
      as (claims & Hclaims & Hiff & _).
    apply Hiff. exists "bob", "uni.edu".
    assert (claims = ["email"]) as ->
      by (vm_compute in Hclaims; injection Hclaims as <-; reflexivity).
    split; [vm_compute; reflexivity|]. split; [reflexivity|].
    apply list_elem_of_singleton. reflexivity.
  - destruct (proj1 (proj2 (check_allowed_precedence Examples.uni_only "mallory"
                     Examples.mallory_login Examples.uni_entity_id
                     Examples.uni_policy world0 eq_refl
                     ltac:(vm_compute; reflexivity) ltac:(vm_compute; reflexivity)
                     ltac:(right; reflexivity)))
                ltac:(vm_compute; discriminate) ["uni.edu"] eq_refl
                ltac:(discriminate))
      as (claims & Hclaims & _ & Hdeny).
    apply (Hdeny "mallory" "other.org").
    + assert (claims = ["email"]) as ->
        by (vm_compute in Hclaims; injection Hclaims as <-; reflexivity).
      vm_compute. reflexivity.
    + reflexivity.
    + intros Hin. apply list_elem_of_singleton in Hin. discriminate.
Defined.

Lemma validate_allowed_idps_accepts_witness :
  ∃ e w', _validate_allowed_idps py_urlparse_scheme cilogon_schema
            Examples.bare_domain_table world0 = (Raise e, w')
          ∧ (e = ValueError ∨ e = ValidationError).
Proof.
  refine (proj1 (proj2 (proj2
    (validate_allowed_idps_accepts py_urlparse_scheme cilogon_schema
       Examples.bare_domain_table world0)))
    "utoronto.ca" (mkIdpPolicy (mkUsernameDerivation "email" None None None) None)
    _ _).
  - apply list_elem_of_here.
  - vm_compute. reflexivity.
Defined.

End CILogonFacts.

(** ** GitHub *)

Module GitHubFacts.
Import GitHub.

Section Facts.

Variable self : GitHubOAuthenticator.
Variable server : list request → request → response.
Variable parse_header_links : string → list (gmap string string).
Variable build_userdata_request_headers : string → string → list (string * string).
Variable super_check_allowed : string → option AuthModel → M bool.

Abbreviation check_membership :=
  (_check_membership_allowed_organizations self server build_userdata_request_headers).
Abbreviation denied := (all_denied self server build_userdata_request_headers).
Abbreviation request_of := (membership_request self build_userdata_request_headers).

(** What a membership check does, by the status and the body of the
    response. *)
Lemma check_membership_run org_team username access_token token_type org url
    (w : world) :
  membership_url self org_team username = Ok (org, url) →
  let rq := mkRequest url "GET"
              (build_userdata_request_headers access_token token_type) in
  let resp := server (requests w) rq in
  let sent l := mkWorld (requests w ++ [rq])
                  (log w ++ LogCheckingMembership username org :: l) in
  check_membership org_team username access_token token_type w
  = if bool_decide (code resp = 204%Z) then
      (Ok true, sent [LogAllowingMember username org_team])
    else
      match body_json resp with
      | None => (Ok false, sent [LogNotMember username org_team (code resp) (JStr "")])
      | Some (JObj fields) =>
          (Ok false,
           sent [LogNotMember username org_team (code resp)
                   (default (JStr "") (obj_get fields "message"))])
      | Some _ => (Raise AttributeError, sent [])
      end.
Proof.
  intros Hurl rq resp sent. unfold _check_membership_allowed_organizations.
  rewrite (bind_lift_ok _ _ _ _ Hurl).
  unfold bind, write_log, httpfetch, ret, raise. simpl.
  fold rq. fold resp. unfold sent.
  case_bool_decide; simpl.
  - by rewrite <-app_assoc.
  - destruct (body_json resp) as [[| | | | |]|]; simpl; by rewrite <-?app_assoc.
Qed.

Lemma check_membership_answer org_team username access_token token_type
    (b : bool) (w w' : world) :
  check_membership org_team username access_token token_type w = (Ok b, w') →
  ∃ rq, request_of org_team username access_token token_type = Ok rq
        ∧ requests w' = requests w ++ [rq]
        ∧ (b = true ↔ code (server (requests w) rq) = 204%Z).
Proof.
  intros Hrun. unfold membership_request.
  destruct (membership_url self org_team username) as [[org url]|e] eqn:Hurl.
  - rewrite (check_membership_run _ _ _ _ org url w Hurl) in Hrun.
    eexists. split; [reflexivity|]. simpl.
    case_bool_decide as Hc.
    + injection Hrun as <- <-. by split.
    + destruct (body_json _) as [[| | | | |]|]; try discriminate;
        injection Hrun as <- <-; (split; [done|]); split; try done; discriminate.
  - unfold _check_membership_allowed_organizations in Hrun.
    by rewrite (bind_lift_raise _ e) in Hrun.
Qed.

Lemma denied_requests username access_token token_type orgs (w w' : world) :
  denied username access_token token_type orgs w w' →
  ∃ reqs,
    Forall2 (λ org_team rq,
               request_of org_team username access_token token_type = Ok rq)
      orgs reqs
    ∧ requests w' = requests w ++ reqs.
Proof.
  induction 1 as [w|e es w w' w'' He _ (reqs & Hreqs & Hw)].
  - exists []. split; [constructor|by rewrite app_nil_r].
  - apply check_membership_answer in He as (rq & Hrq & Hw' & _).
    exists (rq :: reqs). split; [by constructor|].
    by rewrite Hw, Hw', <-app_assoc.
Qed.

Lemma organizations_loop_denied username access_token token_type pre rest
    (w w' : world) :
  denied username access_token token_type pre w w' →
  organizations_loop self server build_userdata_request_headers (pre ++ rest)
    username access_token token_type w
  = organizations_loop self server build_userdata_request_headers rest
      username access_token token_type w'.
Proof.
  induction 1 as [w|e es w w' w'' He _ IH]; [done|].
  cbn [app organizations_loop]. unfold bind at 1. by rewrite He.
Qed.

(** The loop over the organizations, as long as the checks answer: when
    the base decision denies and [allowed_organizations] is not empty, the
    entries are checked in turn; at the first entry whose membership check
    answers [True] the login is allowed, one GET having been issued for each
    entry up to that one and none for the entries after it; when every
    check answers [False] the login is denied. *)
Theorem check_allowed_organizations (username : string) (am : AuthModel)
    (w0 w1 : world) :
  super_check_allowed username (Some am) w0 = (Ok false, w1) →
  allowed_organizations self ≠ [] →
  let access_token := access_token (token_response (auth_state am)) in
  let token_type := token_type (token_response (auth_state am)) in
  let r := check_allowed self server build_userdata_request_headers
             super_check_allowed username (Some am) w0 in
  (∀ before org_team after w2 w3,
     allowed_organizations self = before ++ org_team :: after →
     denied username access_token token_type before w1 w2 →
     check_membership org_team username access_token token_type w2 = (Ok true, w3) →
     r = (Ok true, w3)
     ∧ ∃ reqs,
         Forall2 (λ e rq, request_of e username access_token token_type = Ok rq)
           (before ++ [org_team]) reqs
         ∧ requests w3 = requests w1 ++ reqs)
  ∧ (∀ w2,
     denied username access_token token_type (allowed_organizations self) w1 w2 →
     r = (Ok false,
          mkWorld (requests w2) (log w2 ++ [LogNotInOrganizations username]))
     ∧ ∃ reqs,
         Forall2 (λ e rq, request_of e username access_token token_type = Ok rq)
           (allowed_organizations self) reqs
         ∧ requests w2 = requests w1 ++ reqs).
Proof.
  intros Hsuper Hne tok ty r.
  assert (r = match organizations_loop self server build_userdata_request_headers
                      (allowed_organizations self) username tok ty w1 with
              | (Ok true, w) => (Ok true, w)
              | (Ok false, w) =>
                  (Ok false, mkWorld (requests w)
                               (log w ++ [LogNotInOrganizations username]))
              | (Raise e, w) => (Raise e, w)
              end) as ->.
  { unfold r, check_allowed. unfold bind at 1. rewrite Hsuper.
    rewrite (bool_decide_true _ Hne). fold tok ty. unfold bind.
    by destruct (organizations_loop _ _ _ _ _ _ _ _) as [[[|]|] ?]. }
  split.
  - intros pre e post w2 w3 Horgs Hpre He.
    rewrite Horgs, (organizations_loop_denied _ _ _ pre (e :: post) w1 w2 Hpre).
    cbn [organizations_loop]. unfold bind at 1. rewrite He. split; [done|].
    destruct (denied_requests _ _ _ _ _ _ Hpre) as (reqs & Hreqs & Hw2).
    apply check_membership_answer in He as (rq & Hrq & Hw3 & _).
    exists (reqs ++ [rq]). split.
    + apply Forall2_app; [done|]. by constructor.
    + by rewrite Hw3, Hw2, <-app_assoc.
  - intros w2 Hall.
    pose proof (organizations_loop_denied _ _ _ _ [] w1 w2 Hall) as Hloop.
    rewrite app_nil_r in Hloop. rewrite Hloop. simpl. split; [done|].
    by apply denied_requests.
Qed.

Lemma find_next_some links next_url :
  next_link links next_url → find_next links = Ok (Some next_url).
Proof.
  intros (pre & l & post & -> & Hpre & Hrel & Hurl).
  induction pre as [|l' pre IH]; simpl.
  - rewrite (bool_decide_true _ Hrel). unfold getitem. by rewrite Hurl.
  - rewrite bool_decide_false by (apply Hpre; by left).
    apply IH. intros l'' Hl''. apply Hpre. by right.
Qed.

Lemma find_next_none (links : list (gmap string string)) :
  (∀ l, l ∈ links → l !! "rel" ≠ Some "next") → find_next links = Ok None.
Proof.
  induction links as [|l links IH]; intros Hall; simpl; [done|].
  rewrite bool_decide_false by (apply Hall; by left).
  apply IH. intros l' Hl'. apply Hall. by right.
Qed.

Abbreviation page_request headers :=
  (λ page : string * list json, mkRequest (fst page) "GET" headers).

Lemma paginated_loop_chain access_token token_type history url pages :
  let headers := build_userdata_request_headers access_token token_type in
  page_chain server parse_header_links headers history url pages →
  ∀ fuel content (w : world),
    requests w = history →
    length pages ≤ fuel →
    paginated_loop server parse_header_links build_userdata_request_headers
      fuel url content access_token token_type w
    = Some (Ok (content ++ concat (snd <$> pages)),
            mkWorld (requests w ++ (page_request headers <$> pages)) (log w)).
Proof.
  intros headers.
  induction 1 as [history url items resp Hcode Hbody Hlast
                 |history url items links_header next_url pages resp
                    Hcode Hbody Hlink Hne Hnext _ IH];
    intros fuel content w Hw Hfuel;
    (destruct fuel as [|fuel]; [simpl in Hfuel; lia|]);
    cbn [paginated_loop];
    unfold fetch_page, bind, httpfetch, lift, ret; rewrite Hw; fold headers;
    fold resp; rewrite bool_decide_true by done; simpl; rewrite Hbody; simpl.
  - rewrite app_nil_r. unfold last_page in Hlast.
    destruct (link_header resp) as [h|]; [|done].
    case_bool_decide; [done|].
    destruct Hlast as [?|Hlast]; [done|]. by rewrite (find_next_none _ Hlast).
  - rewrite Hlink, (bool_decide_false _ Hne), (find_next_some _ _ Hnext).
    rewrite (IH fuel (content ++ items)
               (mkWorld (history ++ [mkRequest url "GET" headers]) (log w)));
      [|done|simpl in Hfuel; lia].
    simpl. by rewrite <-!app_assoc.
Qed.

(** C5: over a chain of [N] pages the paginated fetch, given fuel for [N]
    turns or more, leaves its loop with the items of the pages concatenated
    in page order, as many items as the pages hold together, having issued
    the [N] GETs of the pages' URLs in order and nothing else. *)
Theorem paginated_fetch_chain (api_url access_token token_type : string)
    (pages : list (string * list json)) (fuel : nat) (w : world) :
  let headers := build_userdata_request_headers access_token token_type in
  page_chain server parse_header_links headers (requests w) api_url pages →
  length pages ≤ fuel →
  ∃ content reqs,
    _paginated_fetch server parse_header_links build_userdata_request_headers
      fuel api_url access_token token_type w
    = Some (Ok content, mkWorld (requests w ++ reqs) (log w))
    ∧ content = concat (snd <$> pages)
    ∧ length content = sum_list_with (λ page, length (snd page)) pages
    ∧ reqs = (page_request headers <$> pages)
    ∧ length reqs = length pages.
Proof.
  intros headers Hchain Hfuel. eexists _, _. split_and!.
  - unfold _paginated_fetch.
    by rewrite (paginated_loop_chain _ _ _ _ _ Hchain fuel [] w).
  - done.
  - clear. simpl. induction pages as [|[u items] pages IH]; [done|].
    rewrite fmap_cons. simpl. by rewrite length_app, IH.
  - done.
  - by rewrite length_fmap.
Qed.

End Facts.

(** C4: a membership check that raises.  Behind a gateway that answers
    every request with the status 502 and the JSON text [[]], the base
    decision denies, [allowed_organizations] is not empty and no membership
    check answers [True]; the decision does not remain Deny, as the claim
    has it: the [AttributeError] of the first check leaves [check_allowed],
    after one GET, and the other entries are not checked. *)
Theorem check_allowed_organizations_raises :
  let r := check_allowed Examples.github Examples.bad_gateway_server
             Examples.userdata_headers Examples.base_denies
             "alice" (Some Examples.alice_github_login) world0 in
  Examples.base_denies "alice" (Some Examples.alice_github_login) world0
  = (Ok false, world0)
  ∧ allowed_organizations Examples.github = ["org-c"; "org-a"; "org-b:team-x"]
  ∧ (∀ org_team w,
       (_check_membership_allowed_organizations Examples.github
          Examples.bad_gateway_server Examples.userdata_headers
          org_team "alice" "gho_token" "bearer" w).1 ≠ Ok true)
  ∧ r = (Raise AttributeError,
         mkWorld
           [mkRequest "https://api.github.com/orgs/org-c/members/alice" "GET"
              (Examples.userdata_headers "gho_token" "bearer")]
           [LogCheckingMembership "alice" "org-c"])
  ∧ (∀ b w, r ≠ (Ok b, w)).
Proof.
  cbv zeta.
  assert (check_allowed Examples.github Examples.bad_gateway_server
            Examples.userdata_headers Examples.base_denies
            "alice" (Some Examples.alice_github_login) world0
          = (Raise AttributeError,
             mkWorld
               [mkRequest "https://api.github.com/orgs/org-c/members/alice" "GET"
                  (Examples.userdata_headers "gho_token" "bearer")]
               [LogCheckingMembership "alice" "org-c"])) as Hr
    by (by vm_compute).
  split_and!; [done|done| |done|].
  - intros org_team w Htrue.
    destruct (_check_membership_allowed_organizations Examples.github
                Examples.bad_gateway_server Examples.userdata_headers
                org_team "alice" "gho_token" "bearer" w) as [res w'] eqn:Hrun.
    simpl in Htrue. subst res.
    apply check_membership_answer in Hrun as (rq & _ & _ & [Hcode _]).
    by specialize (Hcode eq_refl).
  - intros b w. by rewrite Hr.
Qed.

(** C3: a response of status 502 whose body is the JSON text [[]] makes the
    membership check raise an [AttributeError], where the claim has it
    answer [False]: the body decodes to a list, which has no [get], and the
    [except ValueError] around the decoding does not catch that. *)
Theorem check_membership_non_object_body :
  _check_membership_allowed_organizations Examples.github
    Examples.bad_gateway_server Examples.userdata_headers
    "org-a" "alice" "gho_token" "bearer" world0
  = (Raise AttributeError,
     mkWorld
       [mkRequest "https://api.github.com/orgs/org-a/members/alice" "GET"
          (Examples.userdata_headers "gho_token" "bearer")]
       [LogCheckingMembership "alice" "org-a"]).
Proof. by vm_compute. Qed.

Lemma check_allowed_organizations_witness :
  GitHub.check_allowed Examples.github Examples.org_a_server
    Examples.userdata_headers Examples.base_denies
    "alice" (Some Examples.alice_github_login) world0
  = (Ok true,
     mkWorld
       [mkRequest "https://api.github.com/orgs/org-c/members/alice" "GET"
          (Examples.userdata_headers "gho_token" "bearer");
        mkRequest "https://api.github.com/orgs/org-a/members/alice" "GET"
          (Examples.userdata_headers "gho_token" "bearer")]
       [LogCheckingMembership "alice" "org-c";
        LogNotMember "alice" "org-c" 404 (JStr "Not Found");
        LogCheckingMembership "alice" "org-a";
        LogAllowingMember "alice" "org-a"]).
Proof.
  refine (proj1 (proj1
    (check_allowed_organizations Examples.github Examples.org_a_server
       Examples.userdata_headers Examples.base_denies
       "alice" Examples.alice_github_login world0 world0 _ _)
    ["org-c"] "org-a" ["org-b:team-x"]
    (mkWorld
       [mkRequest "https://api.github.com/orgs/org-c/members/alice" "GET"
          (Examples.userdata_headers "gho_token" "bearer")]
       [LogCheckingMembership "alice" "org-c";
        LogNotMember "alice" "org-c" 404 (JStr "Not Found")])
    _ _ _ _)).
  - reflexivity.
  - discriminate.
  - reflexivity.
  - eapply all_denied_cons; [vm_compute; reflexivity|apply all_denied_nil].
  - vm_compute. reflexivity.
Defined.

Lemma paginated_fetch_chain_witness :
  ∃ content reqs,
    _paginated_fetch Examples.teams_server Examples.teams_links
      Examples.userdata_headers 2 Examples.teams_url "gho_token" "bearer" world0
    = Some (Ok content, mkWorld (requests world0 ++ reqs) (log world0))
    ∧ content = [JStr "team-1"; JStr "team-2"; JStr "team-3"]
    ∧ length content = 3
    ∧ reqs = [mkRequest Examples.teams_url "GET"
                (Examples.userdata_headers "gho_token" "bearer");
              mkRequest Examples.teams_url_2 "GET"
                (Examples.userdata_headers "gho_token" "bearer")]
    ∧ length reqs = 2.
Proof.
  refine (paginated_fetch_chain Examples.teams_server Examples.teams_links
            Examples.userdata_headers Examples.teams_url "gho_token" "bearer"
            [(Examples.teams_url, [JStr "team-1"; JStr "team-2"]);
             (Examples.teams_url_2, [JStr "team-3"])]
            2 world0 _ _).
  - eapply (page_chain_next _ _ _ _ _ _ Examples.teams_link Examples.teams_url_2).
    + vm_compute. split; [discriminate|reflexivity].
    + reflexivity.
    + reflexivity.
    + discriminate.
    + exists [], {[ "url" := Examples.teams_url_2; "rel" := "next" ]},
        [ {[ "url" := Examples.teams_url_2; "rel" := "last" ]} ].
      split; [vm_compute; reflexivity|]. split; [|split; vm_compute; reflexivity].
      intros l Hl. inversion Hl.
    + apply page_chain_last.
      * vm_compute. split; [discriminate|reflexivity].
      * reflexivity.
      * exact I.
  - simpl. lia.
Defined.

End GitHubFacts.

(** ** CILogon: the remaining paths of the decision *)

Module CILogonMore.
Import CILogon CILogonFacts.

Lemma check_allowed_admin (self : CILogonOAuthenticator) (username : string)
    (am : AuthModel) (w : world) :
  admin am = true → check_allowed self username (Some am) w = (Ok true, w).
Proof. intros Hadm. unfold check_allowed. by rewrite Hadm. Qed.

Lemma check_allowed_unknown_idp (self : CILogonOAuthenticator)
    (username : string) (am : AuthModel) (selected_idp : pyval) (w : world) :
  admin am = false →
  allowed_idps self ≠ ∅ →
  user (auth_state am) !! "idp" = Some selected_idp →
  lookup_idp self selected_idp = None →
  check_allowed self username (Some am) w
  = (Raise (HTTPError 403
       "Trying to login using an identity provider that was not allowed"),
     mkWorld (requests w) (log w ++ [LogIdpNotAllowed selected_idp])).
Proof.
  intros Hadm Hne Hidp Hno. unfold check_allowed.
  rewrite Hadm, (bool_decide_true _ Hne). unfold getitem. rewrite Hidp.
  unfold bind at 1, lift at 1. by rewrite Hno.
Qed.

Lemma check_allowed_plain (self : CILogonOAuthenticator)
    (username : string) (am : AuthModel) (w : world) :
  admin am = false →
  allowed_idps self = ∅ →
  check_allowed self username (Some am) w
  = (Ok (bool_decide (allowed_users self = ∅ ∨ username ∈ allowed_users self)), w).
Proof.
  intros Hadm Hno. unfold check_allowed. rewrite Hadm.
  rewrite bool_decide_false by (by intros H).
  case_bool_decide as Hu.
  - case_bool_decide as Hin.
    + by rewrite bool_decide_true by (by right).
    + by rewrite bool_decide_false by (by intros [|]).
  - by rewrite bool_decide_true by (by left).
Qed.

(** X1: a login without an authentication model and an admin's login are
    allowed whatever is configured and whatever the claims hold: no claim
    is read, nothing is logged. *)
Theorem check_allowed_admin_bypass (self : CILogonOAuthenticator)
    (username : string) (w : world) :
  check_allowed self username None w = (Ok true, w)
  ∧ ∀ am, admin am = true → check_allowed self username (Some am) w = (Ok true, w).
Proof. split; [done|]. intros am. apply check_allowed_admin. Qed.

(** X2: with a table configured, a login whose [idp] claim is not a key of
    it is refused with the 403 of the identity provider, after one log
    entry naming the provider; being on the allow-list of usernames does
    not help. *)
Theorem check_allowed_idp_not_allowed (self : CILogonOAuthenticator)
    (username : string) (am : AuthModel) (selected_idp : pyval) (w : world) :
  admin am = false →
  allowed_idps self ≠ ∅ →
  user (auth_state am) !! "idp" = Some selected_idp →
  lookup_idp self selected_idp = None →
  check_allowed self username (Some am) w
  = (Raise (HTTPError 403
       "Trying to login using an identity provider that was not allowed"),
     mkWorld (requests w) (log w ++ [LogIdpNotAllowed selected_idp])).
Proof. apply check_allowed_unknown_idp. Qed.

(** X3: without a table, the decision is the allow-list's alone: allowed
    when no allow-list is configured or the username is on it, denied
    otherwise; the claims are not read. *)
Theorem check_allowed_no_table (self : CILogonOAuthenticator)
    (username : string) (am : AuthModel) (w : world) :
  admin am = false →
  allowed_idps self = ∅ →
  check_allowed self username (Some am) w
  = (Ok (bool_decide (allowed_users self = ∅ ∨ username ∈ allowed_users self)), w).
Proof. apply check_allowed_plain. Qed.

(** X4: a login through a configured IdP is allowed when neither an
    allow-list of usernames nor the IdP's [allowed_domains] is configured,
    whatever its username and the other claims. *)
Theorem check_allowed_unrestricted_idp (self : CILogonOAuthenticator)
    (username : string) (am : AuthModel) i policy (w : world) :
  admin am = false →
  user (auth_state am) !! "idp" = Some (PyStr i) →
  allowed_idps self !! i = Some policy →
  allowed_users self = ∅ →
  domains_configured (allowed_domains policy) = false →
  check_allowed self username (Some am) w = (Ok true, w).
Proof.
  intros Hadm Hidp Hpol Hu Hd.
  rewrite (check_allowed_matched self username am i policy w Hadm Hidp Hpol).
  rewrite Hd. by rewrite bool_decide_false by (by intros H).
Qed.

(** X5: [check_allowed] issues no request, and writes to the log only the
    entry of a refused identity provider. *)
Theorem check_allowed_frame (self : CILogonOAuthenticator) (username : string)
    (auth_model : option AuthModel) (w w' : world) (r : result bool) :
  check_allowed self username auth_model w = (r, w') →
  requests w' = requests w
  ∧ (log w' = log w
     ∨ ∃ selected_idp,
         log w' = log w ++ [LogIdpNotAllowed selected_idp]
         ∧ lookup_idp self selected_idp = None
         ∧ r = Raise (HTTPError 403
                 "Trying to login using an identity provider that was not allowed")).
Proof.
  unfold check_allowed. destruct auth_model as [am|]; [|by intros [= <- <-]; auto].
  destruct (admin am); [by intros [= <- <-]; auto|].
  case_bool_decide as Hne.
  - unfold getitem.
    destruct (user (auth_state am) !! "idp") as [v|] eqn:Hidp;
      [|by intros [= <- <-]; auto].
    unfold bind at 1, lift at 1.
    destruct (lookup_idp self v) as [policy|] eqn:Hpol.
    + destruct (_ || _); [|by intros [= <- <-]; auto].
      case_bool_decide; [by intros [= <- <-]; auto|].
      destruct (domains_configured _); [|by intros [= <- <-]; auto].
      unfold bind, lift, ret, raise.
      destruct (_get_final_username_claim_list self _); [|by intros [= <- <-]; auto].
      destruct (pyval_split1 _ _); [|by intros [= <- <-]; auto].
      destruct (index _ 1); [|by intros [= <- <-]; auto].
      case_bool_decide; by intros [= <- <-]; auto.
    + intros [= <- <-]. split; [done|]. right. by exists v.
  - case_bool_decide; [case_bool_decide|]; by intros [= <- <-]; auto.
Qed.

(** What a successful username derivation tells about the claims. *)
Lemma user_info_to_username_ok (self : CILogonOAuthenticator)
    (user_info : gmap string pyval) (u : string) (w w' : world) :
  user_info_to_username self user_info w = (Ok u, w') →
  w' = w
  ∧ ∃ username_claims v,
      _get_final_username_claim_list self user_info = Ok username_claims
      ∧ _get_username_from_claim_list user_info username_claims = PyStr v
      ∧ v ≠ ""
      ∧ ((allowed_idps self = ∅ ∧ u = v)
         ∨ ∃ selected_idp,
             user_info !! "idp" = Some selected_idp
             ∧ match lookup_idp self selected_idp with
               | None => u = v
               | Some policy =>
                   let d := username_derivation policy in
                   (ud_action d = Some "strip_idp_domain"
                    ∧ u = fst (partition "@" v))
                   ∨ (ud_action d = Some "prefix"
                      ∧ ∃ prefix, ud_prefix d = Some prefix
                                  ∧ u = prefix +:+ ":" +:+ v)
                   ∨ (ud_action d ≠ Some "strip_idp_domain"
                      ∧ ud_action d ≠ Some "prefix" ∧ u = v)
               end).
Proof.
  unfold user_info_to_username. unfold bind at 1, lift at 1.
  destruct (_get_final_username_claim_list self user_info) as [claims|] eqn:Hc;
    [|discriminate].
  destruct (_get_username_from_claim_list user_info claims) as [|v] eqn:Hv;
    [discriminate|].
  case_bool_decide as Hne; [discriminate|].
  case_bool_decide as Htab.
  - unfold getitem. destruct (user_info !! "idp") as [sel|] eqn:Hidp; [|discriminate].
    unfold bind at 1, lift at 1.
    destruct (lookup_idp self sel) as [policy|] eqn:Hpol.
    + case_bool_decide as Hs; [|case_bool_decide as Hp].
      * unfold bind, lift, ret. rewrite index_split1_0. intros [= <- <-].
        split; [done|]. exists claims, v. split_and!; try done.
        right. exists sel. split; [done|]. rewrite Hpol. by left.
      * destruct (ud_prefix _) as [p|] eqn:Hpre; [|discriminate].
        intros [= <- <-]. split; [done|]. exists claims, v. split_and!; try done.
        right. exists sel. split; [done|]. rewrite Hpol. right. left. eauto.
      * intros [= <- <-]. split; [done|]. exists claims, v. split_and!; try done.
        right. exists sel. split; [done|]. rewrite Hpol. by right; right.
    + intros [= <- <-]. split; [done|]. exists claims, v. split_and!; try done.
      right. exists sel. split; [done|]. by rewrite Hpol.
  - intros [= <- <-]. split; [done|]. exists claims, v. split_and!; try done.
    left. by split.
Qed.

Lemma no_at_no_split (h d u : string) :
  contains "@" u = false → u ≠ h +:+ String "@" d.
Proof.
  intros Hc ->. induction h as [|a h IH]; simpl in Hc; [done|].
  apply orb_false_elim in Hc as [_ Hc]. by apply IH.
Qed.

Lemma resolve_single_inv (user_info : gmap string pyval) claim v :
  _get_username_from_claim_list user_info [claim] = PyStr v →
  v ≠ "" →
  present_nonempty user_info claim v.
Proof.
  unfold _get_username_from_claim_list, present_nonempty. simpl.
  intros Hv Hne. split; [|done].
  assert (dict_get user_info claim = PyStr v) as Hget
    by (by destruct (truthy (dict_get user_info claim))).
  unfold dict_get in Hget.
  destruct (user_info !! claim) as [x|]; simpl in Hget; by subst.
Qed.

(** X6: once the username derivation has succeeded on the claims of a
    login, [check_allowed] on that login ends in a decision, but for one
    case: the domain check reached on a claim value that holds no [@],
    which raises [IndexError].  No [KeyError] or [AttributeError] can occur
    then. *)
Theorem check_allowed_after_derivation (self : CILogonOAuthenticator)
    (am : AuthModel) (u username : string) (w0 w1 w : world) :
  user_info_to_username self (user (auth_state am)) w0 = (Ok u, w1) →
  let r := fst (check_allowed self username (Some am) w) in
  is_decision r
  ∨ (r = Raise IndexError
     ∧ admin am = false
     ∧ (username ∉ allowed_users self)
     ∧ (∃ i policy v,
          user (auth_state am) !! "idp" = Some (PyStr i)
          ∧ allowed_idps self !! i = Some policy
          ∧ domains_configured (allowed_domains policy) = true
          ∧ present_nonempty (user (auth_state am))
              (ud_username_claim (username_derivation policy)) v
          ∧ contains "@" v = false)).
Proof.
  intros Hok r. unfold r. clear r.
  destruct (admin am) eqn:Hadm.
  { left. by rewrite (check_allowed_admin self username am w Hadm). }
  apply user_info_to_username_ok in Hok
    as (_ & claims & v & Hclaims & Hv & Hne & [[Hno _]|(sel & Hidp & Hsel)]).
  { left. by rewrite (check_allowed_plain self username am w Hadm Hno). }
  destruct (lookup_idp self sel) as [policy|] eqn:Hpol.
  - clear Hsel. destruct sel as [|i]; [done|]. simpl in Hpol.
    rewrite (claim_list_matched self _ i policy Hidp Hpol) in Hclaims.
    injection Hclaims as <-.
    rewrite (check_allowed_matched self username am i policy w Hadm Hidp Hpol).
    destruct (_ || _); [|by left].
    case_bool_decide as Hin; [by left|].
    destruct (domains_configured _) eqn:Hd; [|by left].
    rewrite Hv.
    destruct (partition "@" v) as [h [t|]] eqn:Hp; simpl.
    + case_bool_decide; left; simpl; auto.
    + right. split; [done|]. split; [done|]. split; [done|].
      apply partition_none in Hp as [_ Hc].
      exists i, policy, v. split_and!; try done.
      by apply resolve_single_inv.
  - left. destruct (decide (allowed_idps self = ∅)) as [Hno|Hne'].
    + by rewrite (check_allowed_plain self username am w Hadm Hno).
    + rewrite (check_allowed_unknown_idp self username am sel w
                 Hadm Hne' Hidp Hpol). simpl. by left.
Qed.

(** X7: the decision does not look at how the username is derived:
    replacing the [action], [domain] and [prefix] of an IdP's derivation,
    its [username_claim] and [allowed_domains] kept, changes the outcome of
    no login. *)
Theorem check_allowed_ignores_action (self : CILogonOAuthenticator) i policy
    (action' domain' prefix' : option string)
    (username : string) (auth_model : option AuthModel) (w : world) :
  allowed_idps self !! i = Some policy →
  let policy' :=
    mkIdpPolicy
      (mkUsernameDerivation (ud_username_claim (username_derivation policy))
         action' domain' prefix')
      (allowed_domains policy) in
  let self' :=
    mkCILogonOAuthenticator (username_claim self)
      (additional_username_claims self)
      (<[i:=policy']> (allowed_idps self)) (allowed_users self) in
  check_allowed self' username auth_model w
  = check_allowed self username auth_model w.
Proof.
  intros Hpol policy' self'.
  destruct auth_model as [am|]; [|done].
  destruct (admin am) eqn:Hadm.
  { by rewrite !(check_allowed_admin _ username am w Hadm). }
  assert (allowed_idps self ≠ ∅) as Hne by (by intros E; rewrite E in Hpol).
  assert (allowed_idps self' ≠ ∅) as Hne' by apply insert_non_empty.
  destruct (user (auth_state am) !! "idp") as [sel|] eqn:Hidp.
  - destruct (lookup_idp self sel) as [p|] eqn:Hsel.
    + destruct sel as [|j]; [done|]. simpl in Hsel.
      destruct (decide (i = j)) as [<-|Hij].
      * assert (p = policy) as -> by congruence.
        rewrite (check_allowed_matched self' username am i policy' w Hadm Hidp)
          by apply lookup_insert_eq.
        by rewrite (check_allowed_matched self username am i policy w Hadm Hidp Hpol).
      * rewrite (check_allowed_matched self' username am j p w Hadm Hidp)
          by (by simpl; rewrite lookup_insert_ne).
        by rewrite (check_allowed_matched self username am j p w Hadm Hidp Hsel).
    + rewrite (check_allowed_unknown_idp self username am sel w Hadm Hne Hidp Hsel).
      apply (check_allowed_unknown_idp self' username am sel w Hadm Hne' Hidp).
      destruct sel as [|j]; [done|]. simpl in *.
      rewrite lookup_insert_ne; [done|]. intros <-. congruence.
  - rewrite (check_allowed_no_idp self username am w Hadm Hne Hidp).
    apply (check_allowed_no_idp self' username am w Hadm Hne' Hidp).
Qed.

(** X8: when no table is configured, or the login's IdP is not a key of
    it, the derived username is the value of the first of [username_claim]
    and [additional_username_claims] that is present and non-empty, as it
    stands. *)
Theorem username_fallback (self : CILogonOAuthenticator)
    (user_info : gmap string pyval) before claim after s (w : world) :
  allowed_idps self = ∅
  ∨ (∃ v, user_info !! "idp" = Some v ∧ lookup_idp self v = None) →
  username_claim self :: additional_username_claims self
  = before ++ claim :: after →
  (∀ c, c ∈ before → ¬ ∃ s', present_nonempty user_info c s') →
  present_nonempty user_info claim s →
  user_info_to_username self user_info w = (Ok s, w).
Proof.
  intros Hun Hlist Hbefore Hs. unfold user_info_to_username.
  assert (_get_final_username_claim_list self user_info
          = Ok (before ++ claim :: after)) as Hclaims.
  { rewrite <-Hlist. destruct Hun as [Hno|(v & Hidp & Hv)].
    - by apply claim_list_no_table.
    - by apply (claim_list_unmatched self user_info v). }
  rewrite (bind_lift_ok _ _ _ _ Hclaims).
  unfold _get_username_from_claim_list.
  rewrite (username_loop_first user_info PyNone before claim after s Hbefore Hs).
  destruct Hs as [_ Hne]. rewrite (bool_decide_false _ Hne).
  destruct Hun as [Hno|(v & Hidp & Hv)].
  - by rewrite bool_decide_false by (by intros H).
  - case_bool_decide; [|done]. unfold getitem. rewrite Hidp.
    unfold bind, lift. by rewrite Hv.
Qed.

(** X9: what the derivation raises besides the 500: a [KeyError] for the
    [idp] claim when a table is configured and the claim is missing, before
    anything is logged, and a [KeyError] for [prefix] when the matched
    rule's action is [prefix] and it names none. *)
Theorem username_key_errors (self : CILogonOAuthenticator)
    (user_info : gmap string pyval) (w : world) :
  (allowed_idps self ≠ ∅ → user_info !! "idp" = None →
     user_info_to_username self user_info w = (Raise (KeyError "idp"), w))
  ∧ (∀ i policy v,
       user_info !! "idp" = Some (PyStr i) →
       allowed_idps self !! i = Some policy →
       present_nonempty user_info (ud_username_claim (username_derivation policy)) v →
       ud_action (username_derivation policy) = Some "prefix" →
       ud_prefix (username_derivation policy) = None →
       user_info_to_username self user_info w = (Raise (KeyError "prefix"), w)).
Proof.
  split.
  - intros Hne Hidp. unfold user_info_to_username, _get_final_username_claim_list.
    rewrite (bool_decide_true _ Hne). unfold getitem. by rewrite Hidp.
  - intros i policy v Hidp Hpol Hv Ha Hp.
    rewrite (user_info_to_username_matched self user_info i policy v w Hidp Hpol Hv).
    by rewrite Ha, Hp.
Qed.

(** X10: a derived username is never empty, except when the action
    [strip_idp_domain] meets a claim value that begins with [@]: then the
    derivation answers the empty username. *)
Theorem username_empty_only_by_strip (self : CILogonOAuthenticator)
    (user_info : gmap string pyval) (w : world) :
  (∀ u w', user_info_to_username self user_info w = (Ok u, w') →
     u = "" →
     ∃ i policy d,
       user_info !! "idp" = Some (PyStr i)
       ∧ allowed_idps self !! i = Some policy
       ∧ ud_action (username_derivation policy) = Some "strip_idp_domain"
       ∧ present_nonempty user_info
           (ud_username_claim (username_derivation policy)) (String "@" d))
  ∧ (∀ i policy d,
       user_info !! "idp" = Some (PyStr i) →
       allowed_idps self !! i = Some policy →
       ud_action (username_derivation policy) = Some "strip_idp_domain" →
       present_nonempty user_info
         (ud_username_claim (username_derivation policy)) (String "@" d) →
       user_info_to_username self user_info w = (Ok "", w)).
Proof.
  split.
  - intros u w' Hok ->.
    apply user_info_to_username_ok in Hok
      as (_ & claims & v & Hclaims & Hv & Hne & [[_ ?]|(sel & Hidp & Hsel)]);
      [done|].
    destruct (lookup_idp self sel) as [policy|] eqn:Hpol; [|done].
    destruct sel as [|i]; [done|]. simpl in Hpol.
    rewrite (claim_list_matched self _ i policy Hidp Hpol) in Hclaims.
    injection Hclaims as <-.
    destruct Hsel as [[Ha Hu]|[(_ & p & _ & Hu)|(_ & _ & ?)]]; [| |done].
    + destruct (partition "@" v) as [h [t|]] eqn:Hp; simpl in Hu; subst h.
      * apply partition_some in Hp as [-> _].
        exists i, policy, t. split_and!; try done.
        by apply resolve_single_inv.
      * by apply partition_none in Hp as [<- _].
    + by destruct p.
  - intros i policy d Hidp Hpol Ha Hv.
    rewrite (user_info_to_username_matched self user_info i policy _ w Hidp Hpol Hv).
    by rewrite bool_decide_true.
Qed.

Lemma partition_app (c : ascii) (h t : string) :
  contains c h = false → partition c (h +:+ String c t) = (h, Some t).
Proof. intros Hh. by apply partition_some. Qed.

(** X11: the [prefix] action keeps the usernames of different IdPs apart:
    when two logins through rules with the action [prefix], whose prefixes
    hold no colon, get the same username, the prefixes are the same and so
    are the claim values. *)
Theorem prefix_separates (self : CILogonOAuthenticator)
    (user_info1 user_info2 : gmap string pyval)
    i1 i2 policy1 policy2 prefix1 prefix2 v1 v2 (u : string) (w : world) :
  user_info1 !! "idp" = Some (PyStr i1) →
  user_info2 !! "idp" = Some (PyStr i2) →
  allowed_idps self !! i1 = Some policy1 →
  allowed_idps self !! i2 = Some policy2 →
  ud_action (username_derivation policy1) = Some "prefix" →
  ud_action (username_derivation policy2) = Some "prefix" →
  ud_prefix (username_derivation policy1) = Some prefix1 →
  ud_prefix (username_derivation policy2) = Some prefix2 →
  contains ":" prefix1 = false →
  contains ":" prefix2 = false →
  present_nonempty user_info1 (ud_username_claim (username_derivation policy1)) v1 →
  present_nonempty user_info2 (ud_username_claim (username_derivation policy2)) v2 →
  user_info_to_username self user_info1 w = (Ok u, w) →
  user_info_to_username self user_info2 w = (Ok u, w) →
  prefix1 = prefix2 ∧ v1 = v2.
Proof.
  intros Hidp1 Hidp2 Hpol1 Hpol2 Ha1 Ha2 Hp1 Hp2 Hc1 Hc2 Hv1 Hv2.
  rewrite (user_info_to_username_matched self user_info1 i1 policy1 v1 w Hidp1 Hpol1 Hv1).
  rewrite (user_info_to_username_matched self user_info2 i2 policy2 v2 w Hidp2 Hpol2 Hv2).
  rewrite Ha1, Ha2, Hp1, Hp2. simpl. intros [= <-] [= E].
  pose proof (partition_app ":" prefix1 v1 Hc1) as P1.
  pose proof (partition_app ":" prefix2 v2 Hc2) as P2.
  change (prefix1 +:+ ":" +:+ v1) with (prefix1 +:+ String ":" v1) in E.
  change (prefix2 +:+ ":" +:+ v2) with (prefix2 +:+ String ":" v2) in E.
  rewrite E in P2. rewrite P1 in P2. by injection P2 as -> ->.
Qed.

(** X12: the [strip_idp_domain] action merges the users of different
    domains: through an IdP that allows the domains [d1] and [d2], the
    logins of [h@d1] and of [h@d2] both get the username [h], and both are
    allowed under it. *)
Theorem strip_merges_domains (self : CILogonOAuthenticator) i policy domains
    (h d1 d2 : string) (am1 am2 : AuthModel) (w : world) :
  allowed_idps self !! i = Some policy →
  ud_action (username_derivation policy) = Some "strip_idp_domain" →
  allowed_domains policy = Some domains →
  d1 ∈ domains → d2 ∈ domains →
  contains "@" h = false →
  admin am1 = false → admin am2 = false →
  user (auth_state am1) !! "idp" = Some (PyStr i) →
  user (auth_state am2) !! "idp" = Some (PyStr i) →
  user (auth_state am1) !! ud_username_claim (username_derivation policy)
  = Some (PyStr (h +:+ String "@" d1)) →
  user (auth_state am2) !! ud_username_claim (username_derivation policy)
  = Some (PyStr (h +:+ String "@" d2)) →
  user_info_to_username self (user (auth_state am1)) w = (Ok h, w)
  ∧ user_info_to_username self (user (auth_state am2)) w = (Ok h, w)
  ∧ check_allowed self h (Some am1) w = (Ok true, w)
  ∧ check_allowed self h (Some am2) w = (Ok true, w).
Proof.
  intros Hpol Ha Hdom Hd1 Hd2 Hh Hadm1 Hadm2 Hidp1 Hidp2 Hv1 Hv2.
  assert (∀ d, h +:+ String "@" d ≠ "") as Hne by (intros d; by destruct h).
  assert (∀ am d, admin am = false →
            user (auth_state am) !! "idp" = Some (PyStr i) →
            user (auth_state am) !! ud_username_claim (username_derivation policy)
            = Some (PyStr (h +:+ String "@" d)) →
            d ∈ domains →
            user_info_to_username self (user (auth_state am)) w = (Ok h, w)
            ∧ check_allowed self h (Some am) w = (Ok true, w)) as Hone.
  { intros am d Hadm Hidp Hv Hd.
    assert (present_nonempty (user (auth_state am))
              (ud_username_claim (username_derivation policy))
              (h +:+ String "@" d)) as Hpres by done.
    split.
    - rewrite (user_info_to_username_matched self _ i policy _ w Hidp Hpol Hpres).
      rewrite bool_decide_true by done. by rewrite partition_app.
    - rewrite (check_allowed_matched self h am i policy w Hadm Hidp Hpol).
      assert (domains_configured (allowed_domains policy) = true) as ->.
      { rewrite Hdom. destruct domains; [by apply elem_of_nil in Hd|done]. }
      rewrite orb_true_r. case_bool_decide; [done|].
      rewrite (resolve_single _ _ _ Hpres), partition_app by done. simpl.
      rewrite Hdom. simpl. by rewrite bool_decide_true. }
  destruct (Hone am1 d1) as [? ?]; try done.
  destruct (Hone am2 d2) as [? ?]; done.
Qed.

(** [_validate_scope] in closed form. *)
Lemma validate_scope_shape (self : CILogonOAuthenticator) (l : list string) :
  _validate_scope self l
  = l ++ (if bool_decide ("openid" ∈ l) then [] else ["openid"])
      ++ (if bool_decide (allowed_idps self ≠ ∅ ∧ "org.cilogon.userinfo" ∉ l)
          then ["org.cilogon.userinfo"] else []).
Proof.
  unfold _validate_scope.
  destruct (decide ("openid" ∈ l)) as [Ho|Ho].
  - rewrite (bool_decide_false ("openid" ∉ l)) by (by intros H).
    rewrite (bool_decide_true _ Ho). simpl.
    destruct (decide (allowed_idps self ≠ ∅)) as [Hi|Hi].
    + rewrite (bool_decide_true _ Hi). simpl.
      case_bool_decide as Hu.
      * by rewrite bool_decide_true.
      * rewrite bool_decide_false by (by intros [_ ?]). by rewrite app_nil_r.
    + rewrite (bool_decide_false _ Hi). simpl.
      rewrite bool_decide_false by (by intros [? _]). by rewrite app_nil_r.
  - rewrite (bool_decide_true ("openid" ∉ l)) by done.
    rewrite (bool_decide_false _ Ho). simpl.
    destruct (decide (allowed_idps self ≠ ∅)) as [Hi|Hi].
    + rewrite (bool_decide_true _ Hi). simpl.
      case_bool_decide as Hu.
      * rewrite bool_decide_true by set_solver. by rewrite <-app_assoc.
      * rewrite bool_decide_false by set_solver. done.
    + rewrite (bool_decide_false _ Hi). simpl.
      by rewrite bool_decide_false by (by intros [? _]).
Qed.

(** X13: validating a validated scope list changes nothing, and a scope
    list without repetitions stays without repetitions. *)
Theorem validate_scope_idempotent (self : CILogonOAuthenticator)
    (proposal_value : list string) :
  _validate_scope self (_validate_scope self proposal_value)
  = _validate_scope self proposal_value
  ∧ (NoDup proposal_value → NoDup (_validate_scope self proposal_value)).
Proof.
  split.
  - rewrite (validate_scope_shape self (_validate_scope self proposal_value)).
    rewrite (validate_scope_shape self proposal_value).
    set (l := proposal_value).
    set (a := if bool_decide ("openid" ∈ l) then [] else ["openid"]).
    set (b := if bool_decide (allowed_idps self ≠ ∅ ∧ "org.cilogon.userinfo" ∉ l)
              then ["org.cilogon.userinfo"] else []).
    assert ("openid" ∈ l ++ a ++ b) as Ho.
    { unfold a. destruct (decide ("openid" ∈ l)) as [H|H].
      - set_solver.
      - rewrite (bool_decide_false _ H). set_solver. }
    assert (allowed_idps self ≠ ∅ → "org.cilogon.userinfo" ∈ l ++ a ++ b) as Hu.
    { intros Hi. unfold b. destruct (decide ("org.cilogon.userinfo" ∈ l)) as [H|H].
      - set_solver.
      - rewrite bool_decide_true by done. set_solver. }
    rewrite (bool_decide_true _ Ho).
    rewrite bool_decide_false by (intros [Hi H]; by apply H, Hu).
    by rewrite !app_nil_r.
  - intros Hnd. rewrite validate_scope_shape.
    destruct (decide ("openid" ∈ proposal_value)) as [Ho|Ho];
      [rewrite (bool_decide_true _ Ho)|rewrite (bool_decide_false _ Ho)];
      (destruct (decide (allowed_idps self ≠ ∅ ∧ "org.cilogon.userinfo" ∉ proposal_value))
         as [Hu|Hu];
       [rewrite (bool_decide_true _ Hu)|rewrite (bool_decide_false _ Hu)]);
      simpl; rewrite ?app_nil_r; try done.
    + apply NoDup_app. split_and!; [done|set_solver|apply NoDup_singleton].
    + apply NoDup_app. split_and!; [done|set_solver|].
      apply NoDup_cons. split; [set_solver|apply NoDup_singleton].
    + apply NoDup_app. split_and!; [done|set_solver|apply NoDup_singleton].
Qed.

(** X14: a rejection names the first offender.  When the validation of
    [allowed_idps] raises, the entries before some entry of the proposed
    table, in the order of the table, are all in order, and that entry is
    at fault in one of three ways: it fails the schema, and the schema's
    error is raised with nothing logged; or [urlparse] raises its
    [ValueError] on the key, with nothing logged; or the key parses with a
    scheme that is not accepted, the key is logged and [ValueError] is
    raised.  No request is issued. *)
Theorem validate_allowed_idps_rejection
    (urlparse_scheme : string → option string)
    (schema_valid : IdpPolicy → bool)
    (proposal_value : list (string * IdpPolicy))
    (e : exn) (w w' : world) :
  _validate_allowed_idps urlparse_scheme schema_valid proposal_value w
  = (Raise e, w') →
  requests w' = requests w
  ∧ ∃ before entity_id policy after,
      proposal_value = before ++ (entity_id, policy) :: after
      ∧ (∀ k p, (k, p) ∈ before →
           schema_valid p = true
           ∧ ∃ scheme, urlparse_scheme k = Some scheme
                       ∧ scheme ∈ accepted_entity_id_scheme)
      ∧ ((e = ValidationError
          ∧ schema_valid policy = false
          ∧ log w' = log w)
         ∨ (e = ValueError
            ∧ schema_valid policy = true
            ∧ urlparse_scheme entity_id = None
            ∧ log w' = log w)
         ∨ (e = ValueError
            ∧ schema_valid policy = true
            ∧ (∃ scheme, urlparse_scheme entity_id = Some scheme
                         ∧ scheme ∉ accepted_entity_id_scheme)
            ∧ log w' = log w ++ [LogInvalidEntityId entity_id])).
Proof.
  unfold _validate_allowed_idps, bind.
  destruct (validate_items _ _ _ w) as [[[]|e0] w0] eqn:Hrun; [discriminate|].
  intros [= -> ->].
  destruct (validate_items_first _ _ _ _ _ _ Hrun)
    as (before & k & p & after & -> & Hall & Hitem).
  assert (∀ k' p', (k', p') ∈ before →
            schema_valid p' = true
            ∧ ∃ scheme, urlparse_scheme k' = Some scheme
                        ∧ scheme ∈ accepted_entity_id_scheme) as Hbefore.
  { intros k' p' Hin. rewrite Forall_forall in Hall. apply (Hall (k', p') Hin). }
  destruct (validate_item_cases urlparse_scheme schema_valid k p w)
    as [[_ Hr]|[[Hs Hr]|[(Hs & Hp & Hr)|(Hs & scheme & Hp & Hk & Hr)]]];
    cbv zeta in Hr; rewrite Hitem in Hr; try discriminate;
    injection Hr as -> ->; (split; [done|]); exists before, k, p, after;
    (split; [done|]); (split; [done|]).
  - by left.
  - by right; left.
  - right; right. split_and!; try done. by exists scheme.
Qed.

(** The three ways of a rejection, run: a key on which [urlparse] raises
    is rejected with nothing logged, before the domain name after it is
    looked at; a domain name for a key is logged and rejected; an entry that
    fails the schema is rejected with the schema's error. *)
Lemma validate_allowed_idps_runs :
  py_urlparse_scheme "https://[::1" = None
  ∧ _validate_allowed_idps py_urlparse_scheme cilogon_schema
      Examples.open_bracket_table world0
    = (Raise ValueError, world0)
  ∧ _validate_allowed_idps py_urlparse_scheme cilogon_schema
      Examples.bare_domain_table world0
    = (Raise ValueError, mkWorld [] [LogInvalidEntityId "utoronto.ca"])
  ∧ _validate_allowed_idps py_urlparse_scheme cilogon_schema
      Examples.prefix_without_prefix world0
    = (Raise ValidationError, world0).
Proof. split_and!; vm_compute; reflexivity. Qed.

(** *** The properties at the example configurations *)

Lemma check_allowed_admin_bypass_witness :
  check_allowed Examples.github_idp_only "root" (Some Examples.admin_login) world0
  = (Ok true, world0).
Proof.
  exact (proj2 (check_allowed_admin_bypass Examples.github_idp_only "root" world0)
           Examples.admin_login eq_refl).
Defined.

Lemma check_allowed_idp_not_allowed_witness :
  check_allowed Examples.uni_only "carol" (Some Examples.stranger_login) world0
  = (Raise (HTTPError 403
       "Trying to login using an identity provider that was not allowed"),
     mkWorld [] [LogIdpNotAllowed (PyStr "https://idp.other.org/shibboleth")]).
Proof.
  refine (check_allowed_idp_not_allowed Examples.uni_only "carol"
            Examples.stranger_login (PyStr "https://idp.other.org/shibboleth")
            world0 _ _ _ _).
  - reflexivity.
  - intros E. apply (f_equal (lookup Examples.uni_entity_id)) in E.
    vm_compute in E. discriminate.
  - vm_compute. reflexivity.
  - vm_compute. reflexivity.
Defined.

Lemma check_allowed_no_table_witness :
  check_allowed Examples.no_table "carol" (Some Examples.bob_login) world0
  = (Ok true, world0)
  ∧ check_allowed Examples.no_table "bob" (Some Examples.bob_login) world0
    = (Ok false, world0).
Proof.
  split.
  - exact (check_allowed_no_table Examples.no_table "carol" Examples.bob_login
             world0 eq_refl eq_refl).
  - exact (check_allowed_no_table Examples.no_table "bob" Examples.bob_login
             world0 eq_refl eq_refl).
Defined.

Lemma check_allowed_unrestricted_idp_witness :
  check_allowed Examples.github_open "alice" (Some Examples.alice_login) world0
  = (Ok true, world0).
Proof.
  refine (check_allowed_unrestricted_idp Examples.github_open "alice"
            Examples.alice_login Examples.github_entity_id
            (mkIdpPolicy (mkUsernameDerivation "username" None None None) None)
            world0 _ _ _ _ _).
  - reflexivity.
  - vm_compute. reflexivity.
  - vm_compute. reflexivity.
  - reflexivity.
  - reflexivity.
Defined.

Lemma check_allowed_frame_witness :
  requests (mkWorld [] [LogIdpNotAllowed (PyStr "https://idp.other.org/shibboleth")])
  = requests world0
  ∧ (log (mkWorld [] [LogIdpNotAllowed (PyStr "https://idp.other.org/shibboleth")])
     = log world0
     ∨ ∃ selected_idp,
         log (mkWorld [] [LogIdpNotAllowed (PyStr "https://idp.other.org/shibboleth")])
         = log world0 ++ [LogIdpNotAllowed selected_idp]
         ∧ lookup_idp Examples.uni_only selected_idp = None
         ∧ @Raise bool (HTTPError 403
             "Trying to login using an identity provider that was not allowed")
           = Raise (HTTPError 403
               "Trying to login using an identity provider that was not allowed")).
Proof.
  refine (check_allowed_frame Examples.uni_only "carol"
            (Some Examples.stranger_login) world0 _ _ _).
  vm_compute. reflexivity.
Defined.

Lemma check_allowed_after_derivation_witness :
  is_decision (fst (check_allowed Examples.uni_only "bob"
                      (Some Examples.bob_login) world0))
  ∨ (fst (check_allowed Examples.uni_only "bob" (Some Examples.bob_login) world0)
     = Raise IndexError
     ∧ admin Examples.bob_login = false
     ∧ ("bob" ∉ allowed_users Examples.uni_only)
     ∧ (∃ i policy v,
          user (auth_state Examples.bob_login) !! "idp" = Some (PyStr i)
          ∧ allowed_idps Examples.uni_only !! i = Some policy
          ∧ domains_configured (allowed_domains policy) = true
          ∧ present_nonempty (user (auth_state Examples.bob_login))
              (ud_username_claim (username_derivation policy)) v
          ∧ contains "@" v = false)).
Proof.
  refine (check_allowed_after_derivation Examples.uni_only Examples.bob_login
            "bob" "bob" world0 world0 world0 _).
  vm_compute. reflexivity.
Defined.

Lemma check_allowed_ignores_action_witness :
  check_allowed
    (mkCILogonOAuthenticator "eppn" ["email"]
       (<[Examples.uni_entity_id :=
            mkIdpPolicy (mkUsernameDerivation "email" (Some "prefix") None (Some "uni"))
              (Some ["uni.edu"])]> (allowed_idps Examples.uni_only))
       {[ "carol" ]})
    "mallory" (Some Examples.mallory_login) world0
  = check_allowed Examples.uni_only "mallory" (Some Examples.mallory_login) world0.
Proof.
  refine (check_allowed_ignores_action Examples.uni_only Examples.uni_entity_id
            Examples.uni_policy (Some "prefix") None (Some "uni")
            "mallory" (Some Examples.mallory_login) world0 _).
  vm_compute. reflexivity.
Defined.

Lemma username_fallback_witness :
  user_info_to_username Examples.no_table Examples.linked_user_info world0
  = (Ok "dave@uni.edu", world0).
Proof.
  refine (username_fallback Examples.no_table Examples.linked_user_info
            ["eppn"] "email" [] "dave@uni.edu" world0 _ _ _ _).
  - left. reflexivity.
  - reflexivity.
  - intros c Hc (s & Hs & _). apply list_elem_of_singleton in Hc.
    rewrite Hc in Hs. vm_compute in Hs. discriminate.
  - split; [vm_compute; reflexivity|discriminate].
Defined.

Lemma username_key_errors_witness :
  user_info_to_username Examples.github_idp_only ∅ world0
  = (Raise (KeyError "idp"), world0).
Proof.
  refine (proj1 (username_key_errors Examples.github_idp_only ∅ world0) _ _).
  - intros E. apply (f_equal (lookup Examples.github_entity_id)) in E.
    vm_compute in E. discriminate.
  - reflexivity.
Defined.

Lemma username_empty_only_by_strip_witness :
  user_info_to_username Examples.uni_only Examples.headless_user_info world0
  = (Ok "", world0).
Proof.
  refine (proj2 (username_empty_only_by_strip Examples.uni_only
                   Examples.headless_user_info world0)
            Examples.uni_entity_id Examples.uni_policy "uni.edu" _ _ _ _).
  - vm_compute. reflexivity.
  - vm_compute. reflexivity.
  - reflexivity.
  - split; [vm_compute; reflexivity|discriminate].
Defined.

Lemma prefix_separates_witness : "gh" = "gh" ∧ "alice" = "alice".
Proof.
  refine (prefix_separates Examples.github_prefixed
            Examples.alice_user_info Examples.alice_user_info
            Examples.github_entity_id Examples.github_entity_id
            (mkIdpPolicy (mkUsernameDerivation "username" (Some "prefix") None (Some "gh"))
               None)
            (mkIdpPolicy (mkUsernameDerivation "username" (Some "prefix") None (Some "gh"))
               None)
            "gh" "gh" "alice" "alice" "gh:alice" world0
            _ _ _ _ _ _ _ _ _ _ _ _ _ _);
    try reflexivity; try (vm_compute; reflexivity);
    (split; [vm_compute; reflexivity|discriminate]).
Defined.

Lemma strip_merges_domains_witness :
  user_info_to_username Examples.two_domains
    (user (auth_state Examples.bob_login)) world0 = (Ok "bob", world0)
  ∧ user_info_to_username Examples.two_domains
      (user (auth_state Examples.bob_lab_login)) world0 = (Ok "bob", world0)
  ∧ check_allowed Examples.two_domains "bob" (Some Examples.bob_login) world0
    = (Ok true, world0)
  ∧ check_allowed Examples.two_domains "bob" (Some Examples.bob_lab_login) world0
    = (Ok true, world0).
Proof.
  refine (strip_merges_domains Examples.two_domains Examples.uni_entity_id
            Examples.two_domains_policy ["uni.edu"; "lab.org"]
            "bob" "uni.edu" "lab.org" Examples.bob_login Examples.bob_lab_login
            world0 _ _ _ _ _ _ _ _ _ _ _ _);
    try reflexivity; try (vm_compute; reflexivity).
  - apply list_elem_of_here.
  - apply list_elem_of_further, list_elem_of_here.
Defined.

Lemma validate_scope_idempotent_witness :
  NoDup (_validate_scope Examples.uni_only ["email"]).
Proof.
  refine (proj2 (validate_scope_idempotent Examples.uni_only ["email"]) _).
  apply NoDup_singleton.
Defined.

Lemma validate_allowed_idps_rejection_witness :
  requests world0 = requests world0
  ∧ ∃ before entity_id policy after,
      Examples.open_bracket_table = before ++ (entity_id, policy) :: after
      ∧ (∀ k p, (k, p) ∈ before →
           cilogon_schema p = true
           ∧ ∃ scheme, py_urlparse_scheme k = Some scheme
                       ∧ scheme ∈ accepted_entity_id_scheme)
      ∧ ((ValueError = ValidationError
          ∧ cilogon_schema policy = false
          ∧ log world0 = log world0)
         ∨ (ValueError = ValueError
            ∧ cilogon_schema policy = true
            ∧ py_urlparse_scheme entity_id = None
            ∧ log world0 = log world0)
         ∨ (ValueError = ValueError
            ∧ cilogon_schema policy = true
            ∧ (∃ scheme, py_urlparse_scheme entity_id = Some scheme
                         ∧ scheme ∉ accepted_entity_id_scheme)
            ∧ log world0 = log world0 ++ [LogInvalidEntityId entity_id])).
Proof.
  refine (validate_allowed_idps_rejection py_urlparse_scheme cilogon_schema
            Examples.open_bracket_table ValueError world0 world0 _).
  vm_compute. reflexivity.
Defined.

End CILogonMore.

(** ** The login handler and the URL defaults *)

Module HandlerFacts.
Import CILogonLoginHandler.

Lemma split_clean (c : ascii) (s : string) :
  contains c s = false → split c s = [s].
Proof.
  induction s as [|a s IH]; simpl; [done|].
  intros [Ha Hs]%orb_false_elim. rewrite Ha, (IH Hs). done.
Qed.

Lemma split_app (c : ascii) (h t : string) :
  contains c h = false → split c (h +:+ String c t) = h :: split c t.
Proof.
  induction h as [|a h IH]; simpl.
  - intros _. by rewrite Ascii.eqb_refl.
  - intros [Ha Hh]%orb_false_elim. rewrite Ha, (IH Hh). done.
Qed.

Lemma split_join (c : ascii) (l : list string) :
  l ≠ [] →
  Forall (λ s, contains c s = false) l →
  split c (join (String c EmptyString) l) = l.
Proof.
  intros Hne Hall. induction Hall as [|x l Hx Hall IH]; [done|].
  destruct l as [|y l].
  - simpl. by apply split_clean.
  - change (join (String c "") (x :: y :: l))
      with (x +:+ String c (join (String c "") (y :: l))).
    rewrite split_app by done. by rewrite IH.
Qed.

(** X15: the redirect carries the shown IdPs under [selected_idp], joined
    by commas, from which they are read back by splitting at the commas
    when no IdP holds one; it carries the skin under [skin]; a value the
    caller gave for either is replaced, and every other parameter of the
    caller is handed on as it was.  Without shown IdPs (without a skin) the
    caller's entry stays. *)
Theorem authorize_redirect_params (authenticator : Authenticator)
    (extra_params : option (gmap string string)) :
  let out := authorize_redirect authenticator extra_params in
  (shown_idps authenticator ≠ [] →
     out !! "selected_idp" = Some (join "," (shown_idps authenticator))
     ∧ (Forall (λ idp, contains "," idp = false) (shown_idps authenticator) →
        split "," (join "," (shown_idps authenticator)) = shown_idps authenticator))
  ∧ (shown_idps authenticator = [] →
     out !! "selected_idp" = default ∅ extra_params !! "selected_idp")
  ∧ (skin authenticator ≠ "" → out !! "skin" = Some (skin authenticator))
  ∧ (skin authenticator = "" → out !! "skin" = default ∅ extra_params !! "skin")
  ∧ (∀ name, name ≠ "selected_idp" → name ≠ "skin" →
       out !! name = default ∅ extra_params !! name).
Proof.
  intros out. unfold out, authorize_redirect. split_and!.
  - intros Hne. rewrite (bool_decide_true _ Hne). split.
    + case_bool_decide; [rewrite lookup_insert_ne by done|];
        by rewrite lookup_insert_eq.
    + intros Hall. by apply split_join.
  - intros ->. simpl. case_bool_decide; [by rewrite lookup_insert_ne|done].
  - intros Hne. rewrite (bool_decide_true _ Hne). by rewrite lookup_insert_eq.
  - intros ->. simpl. case_bool_decide; [|done].
    by rewrite lookup_insert_ne.
  - intros name H1 H2. repeat case_bool_decide; by rewrite ?lookup_insert_ne.
Qed.

Lemma authorize_redirect_params_witness :
  authorize_redirect Examples.two_shown None !! "selected_idp"
  = Some "https://github.com/login/oauth/authorize,https://idp.uni.edu/shibboleth"
  ∧ split "," "https://github.com/login/oauth/authorize,https://idp.uni.edu/shibboleth"
    = [Examples.github_entity_id; Examples.uni_entity_id]
  ∧ authorize_redirect Examples.two_shown None !! "skin" = Some "campus".
Proof.
  pose proof (authorize_redirect_params Examples.two_shown None) as (H1 & _ & H3 & _).
  destruct (H1 ltac:(discriminate)) as [Hsel Hsplit].
  split; [exact Hsel|]. split.
  - apply Hsplit. repeat constructor.
  - apply H3. discriminate.
Defined.

End HandlerFacts.

Module GitHubDefaultsFacts.
Import GitHubDefaults.

Lemma prefix_refl_app (p s : string) : String.prefix p (p +:+ s) = true.
Proof.
  induction p as [|a p IH]; simpl; [by destruct s|].
  destruct (ascii_dec a a); [done|congruence].
Qed.

Lemma infix_of_prefix (p s : string) : String.prefix p s = true → infix p s = true.
Proof. intros H. destruct s; cbn [infix]; by rewrite H. Qed.

Lemma infix_app (a p s : string) : infix p (a +:+ p +:+ s) = true.
Proof.
  induction a as [|x a IH].
  - change ("" +:+ p +:+ s) with (p +:+ s).
    apply infix_of_prefix, prefix_refl_app.
  - change (String x a +:+ p +:+ s) with (String x (a +:+ p +:+ s)).
    cbn [infix]. rewrite IH. by rewrite orb_true_r.
Qed.

Lemma github_url_default_shape (environ : gmap string string) :
  let '(github_url, warnings) := _github_url_default environ in
  infix "://" github_url = true
  ∧ github_url ≠ ""
  ∧ (warnings ≠ [] ↔
       truthy (environ_get environ "GITHUB_URL") = false
       ∧ truthy (environ_get environ "GITHUB_HOST") = true
       ∧ truthy (environ_get environ "GITHUB_HTTP") = true).
Proof.
  unfold _github_url_default.
  destruct (environ_get environ "GITHUB_URL") as [|u];
    destruct (environ_get environ "GITHUB_HOST") as [|h];
    destruct (environ_get environ "GITHUB_HTTP") as [|t];
    cbn -[infix append rstrip];
    repeat (case_bool_decide; cbn -[infix append rstrip]).
  all: try (exfalso;
            match goal with H : _ +:+ _ = "" |- _ => by simpl in H end).
  all: rewrite ?(infix_app "http" "://"), ?(infix_app "https" "://");
    cbn -[infix append rstrip].
  all: try (destruct (infix "://" u) eqn:Hi; cbn -[infix append rstrip]).
  all: rewrite ?(infix_app "https" "://").
  all: change (rstrip "/" "https://github.com") with "https://github.com".
  all: change (infix "://" "https://github.com") with true.
  all: (split_and!; [try done|try (by simpl)|]).
  all: try apply (infix_app "http" "://").
  all: try apply (infix_app "https" "://").
  all: split; [intros ?|intros (? & ? & ?)]; done.
Qed.

(** X16: whatever the environment holds, the default GitHub URL is not
    empty and names a protocol; a warning is issued exactly when the URL is
    built from [GITHUB_HOST] with [GITHUB_HTTP] set. *)
Theorem github_url_default_has_protocol (environ : gmap string string) :
  let '(github_url, warnings) := _github_url_default environ in
  infix "://" github_url = true
  ∧ github_url ≠ ""
  ∧ (warnings ≠ [] ↔
       truthy (environ_get environ "GITHUB_URL") = false
       ∧ truthy (environ_get environ "GITHUB_HOST") = true
       ∧ truthy (environ_get environ "GITHUB_HTTP") = true).
Proof. apply github_url_default_shape. Qed.

(** X17: the default URL is a fixed point of the configuration: put back
    into [GITHUB_URL], it is returned as it is, without a warning, whatever
    else the environment holds.  So is the URL the warning recommends. *)
Theorem github_url_default_stable (environ environ' : gmap string string) :
  environ' !! "GITHUB_URL" = Some (fst (_github_url_default environ)) →
  _github_url_default environ' = (fst (_github_url_default environ), []).
Proof.
  pose proof (github_url_default_shape environ) as H.
  destruct (_github_url_default environ) as [url ws]. destruct H as (Hi & Hne & _).
  simpl. intros Hurl.
  assert (environ_get environ' "GITHUB_URL" = PyStr url) as Hget
    by (unfold environ_get; by rewrite Hurl).
  unfold _github_url_default. rewrite Hget. cbn -[infix append rstrip].
  rewrite (bool_decide_true _ Hne). cbn -[infix append rstrip].
  rewrite Hi, ?(bool_decide_true _ Hne). reflexivity.
Qed.

Lemma github_url_default_stable_witness :
  _github_url_default
    (<["GITHUB_URL" := "http://ghe.example.org"]> Examples.old_environ)
  = ("http://ghe.example.org", []).
Proof.
  refine (github_url_default_stable Examples.old_environ
            (<["GITHUB_URL" := "http://ghe.example.org"]> Examples.old_environ) _).
  vm_compute. reflexivity.
Defined.

End GitHubDefaultsFacts.

(** ** GitHub: the remaining paths *)

Module GitHubMore.
Import GitHub GitHubFacts.

Section Facts.

Variable self : GitHubOAuthenticator.
Variable server : list request → request → response.
Variable parse_header_links : string → list (gmap string string).
Variable build_userdata_request_headers : string → string → list (string * string).
Variable super_check_allowed : string → option AuthModel → M bool.

Abbreviation check_membership :=
  (_check_membership_allowed_organizations self server build_userdata_request_headers).
Abbreviation denied := (all_denied self server build_userdata_request_headers).
Abbreviation request_of := (membership_request self build_userdata_request_headers).
Abbreviation loop :=
  (organizations_loop self server build_userdata_request_headers).

(** The URL a membership check is made of, by the shape of the entry. *)
Lemma membership_url_shape (username : string) :
  (∀ org, contains ":" org = false →
     membership_url self org username
     = Ok (org, github_api self +:+ "/orgs/" +:+ org +:+ "/members/" +:+ username))
  ∧ (∀ org team, contains ":" org = false → contains ":" team = false →
       membership_url self (org +:+ String ":" team) username
       = Ok (org, github_api self +:+ "/orgs/" +:+ org +:+ "/teams/" +:+ team
                  +:+ "/members/" +:+ username))
  ∧ (∀ a b c, contains ":" a = false → contains ":" b = false →
       membership_url self (a +:+ String ":" (b +:+ String ":" c)) username
       = Raise ValueError).
Proof.
  assert (∀ h t, contains ":" (h +:+ String ":" t) = true) as Hcolon.
  { intros h t. induction h as [|x h IH]; simpl; [done|]. by rewrite IH, orb_true_r. }
  split_and!.
  - intros org Hc. unfold membership_url. by rewrite Hc.
  - intros org team Ho Ht. unfold membership_url. rewrite Hcolon.
    by rewrite (HandlerFacts.split_app ":" org team Ho),
      (HandlerFacts.split_clean ":" team Ht).
  - intros a b c Ha Hb. unfold membership_url. rewrite Hcolon.
    rewrite (HandlerFacts.split_app ":" a _ Ha), (HandlerFacts.split_app ":" b _ Hb).
    assert (∀ s, split ":" s ≠ []) as Hne.
    { intros s. induction s as [|x s IH]; simpl; [done|].
      destruct (Ascii.eqb x ":"); [done|]. by destruct (split ":" s). }
    destruct (split ":" c) eqn:E; [by apply Hne in E|done].
Qed.

(** A check whose URL is made issues the GET of that URL, and nothing
    else, and logs the organization first, whatever the answer is. *)
Lemma check_membership_sends org_team username access_token token_type org url
    (w : world) :
  membership_url self org_team username = Ok (org, url) →
  let run := check_membership org_team username access_token token_type w in
  requests run.2
  = requests w ++ [mkRequest url "GET"
                     (build_userdata_request_headers access_token token_type)]
  ∧ ∃ entries, log run.2 = log w ++ LogCheckingMembership username org :: entries.
Proof.
  intros Hurl run. unfold run.
  rewrite (GitHubFacts.check_membership_run self server
             build_userdata_request_headers _ _ _ _ org url w Hurl).
  case_bool_decide; [simpl; eauto|].
  destruct (body_json _) as [[| | | | |]|]; simpl; eauto.
Qed.

(** X18: the request of a membership check.  The check of an entry without
    a colon issues one GET, of [{github_api}/orgs/{org}/members/{username}]
    with the user's headers, and logs the organization first; the check of
    an entry [org:team] issues one GET, of
    [{github_api}/orgs/{org}/teams/{team}/members/{username}]; the check of
    an entry with two colons or more raises [ValueError] before anything is
    requested or logged. *)
Theorem membership_check_target (username access_token token_type : string)
    (w : world) :
  let headers := build_userdata_request_headers access_token token_type in
  (∀ org, contains ":" org = false →
     let run := check_membership org username access_token token_type w in
     requests run.2
     = requests w
       ++ [mkRequest (github_api self +:+ "/orgs/" +:+ org +:+ "/members/"
                      +:+ username) "GET" headers]
     ∧ ∃ entries,
         log run.2 = log w ++ LogCheckingMembership username org :: entries)
  ∧ (∀ org team, contains ":" org = false → contains ":" team = false →
       let run := check_membership (org +:+ String ":" team)
                    username access_token token_type w in
       requests run.2
       = requests w
         ++ [mkRequest (github_api self +:+ "/orgs/" +:+ org +:+ "/teams/"
                        +:+ team +:+ "/members/" +:+ username) "GET" headers]
       ∧ ∃ entries,
           log run.2 = log w ++ LogCheckingMembership username org :: entries)
  ∧ (∀ a b c, contains ":" a = false → contains ":" b = false →
       check_membership (a +:+ String ":" (b +:+ String ":" c))
         username access_token token_type w
       = (Raise ValueError, w)).
Proof.
  intros headers.
  destruct (membership_url_shape username) as (Horg & Hteam & Hbad).
  split_and!.
  - intros org Hc. apply check_membership_sends. by apply Horg.
  - intros org team Ho Ht. apply check_membership_sends. by apply Hteam.
  - intros a b c Ha Hb. unfold _check_membership_allowed_organizations.
    apply bind_lift_raise. by apply Hbad.
Qed.

Lemma check_membership_cases (org_team username access_token token_type : string)
    (w w' : world) (r : result bool) :
  check_membership org_team username access_token token_type w = (r, w') →
  (∃ rq,
     request_of org_team username access_token token_type = Ok rq
     ∧ requests w' = requests w ++ [rq]
     ∧ let resp := server (requests w) rq in
       (r = Ok true ∧ code resp = 204%Z)
       ∨ (r = Ok false ∧ code resp ≠ 204%Z)
       ∨ (r = Raise AttributeError ∧ code resp ≠ 204%Z
          ∧ ∃ j, body_json resp = Some j ∧ ∀ fields, j ≠ JObj fields))
  ∨ (r = Raise ValueError ∧ w' = w
     ∧ membership_url self org_team username = Raise ValueError).
Proof.
  intros Hrun. unfold membership_request.
  destruct (membership_url self org_team username) as [[org url]|e] eqn:Hurl.
  - left. rewrite (check_membership_run _ _ _ _ _ _ _ org url w Hurl) in Hrun.
    eexists. split; [reflexivity|]. simpl.
    case_bool_decide as Hc.
    + injection Hrun as <- <-. split; [done|]. by left.
    + destruct (body_json _) as [j|] eqn:Hb.
      * destruct j; injection Hrun as <- <-; (split; [done|]); right;
          solve [ by left | right; split_and!; [done|done|]; eexists; split; [done|]; done ].
      * injection Hrun as <- <-. split; [done|]. right. by left.
  - right. unfold _check_membership_allowed_organizations in Hrun.
    rewrite (bind_lift_raise _ e) in Hrun by done. injection Hrun as <- <-.
    assert (e = ValueError) as ->; [|done].
    unfold membership_url in Hurl. destruct (contains ":" org_team); [|done].
    destruct (split ":" org_team) as [|? [|? [|? ?]]]; congruence.
Qed.

(** X19: every way a membership check can end.  It answers [True] only
    after a 204; on any other status it answers [False] or, for a JSON
    body that is not an object, raises [AttributeError]; in these cases it
    has issued the one GET of the entry.  Otherwise the entry is malformed
    and nothing was requested. *)
Theorem membership_check_outcomes (org_team username access_token token_type : string)
    (w w' : world) (r : result bool) :
  check_membership org_team username access_token token_type w = (r, w') →
  (∃ rq,
     request_of org_team username access_token token_type = Ok rq
     ∧ requests w' = requests w ++ [rq]
     ∧ let resp := server (requests w) rq in
       (r = Ok true ∧ code resp = 204%Z)
       ∨ (r = Ok false ∧ code resp ≠ 204%Z)
       ∨ (r = Raise AttributeError ∧ code resp ≠ 204%Z
          ∧ ∃ j, body_json resp = Some j ∧ ∀ fields, j ≠ JObj fields))
  ∨ (r = Raise ValueError ∧ w' = w
     ∧ membership_url self org_team username = Raise ValueError).
Proof. apply check_membership_cases. Qed.

Lemma loop_requests username access_token token_type orgs (w w' : world)
    (r : result bool) :
  loop orgs username access_token token_type w = (r, w') →
  ∃ reqs, requests w' = requests w ++ reqs ∧ length reqs ≤ length orgs.
Proof.
  revert w. induction orgs as [|e orgs IH]; intros w; cbn [organizations_loop].
  - intros [= <- <-]. exists []. by rewrite app_nil_r.
  - unfold bind at 1.
    destruct (check_membership e username access_token token_type w)
      as [[[|]|exn] w1] eqn:He.
    + intros [= <- <-].
      apply check_membership_cases in He as [(rq & _ & Hw & _)|(? & _)]; [|done].
      exists [rq]. split; [done|]. simpl. lia.
    + intros Hrest. apply IH in Hrest as (reqs & Hw' & Hlen).
      apply check_membership_cases in He as [(rq & _ & Hw & _)|(? & _)]; [|done].
      exists (rq :: reqs). split; [by rewrite Hw', Hw, <-app_assoc|]. simpl. lia.
    + intros [= <- <-].
      apply check_membership_cases in He as [(rq & _ & Hw & _)|(_ & -> & _)].
      * exists [rq]. split; [done|]. simpl. lia.
      * exists []. split; [by rewrite app_nil_r|]. simpl. lia.
Qed.

Lemma loop_true username access_token token_type orgs (w w' : world) :
  loop orgs username access_token token_type w = (Ok true, w') →
  ∃ org_team rq history,
    org_team ∈ orgs
    ∧ request_of org_team username access_token token_type = Ok rq
    ∧ requests w' = history ++ [rq]
    ∧ code (server history rq) = 204%Z.
Proof.
  revert w. induction orgs as [|e orgs IH]; intros w; cbn [organizations_loop].
  - discriminate.
  - unfold bind at 1.
    destruct (check_membership e username access_token token_type w)
      as [[[|]|exn] w1] eqn:He.
    + intros [= <-].
      apply check_membership_cases in He
        as [(rq & Hrq & Hw & [[_ Hc]|[[? _]|[? _]]])|(? & _)]; try done.
      exists e, rq, (requests w). split_and!; [by left|done..].
    + intros Hrest. apply IH in Hrest as (e' & rq & h & Hin & ?).
      exists e', rq, h. split; [by right|done].
    + discriminate.
Qed.

(** X20: the login is allowed only when the base decision allows it, or
    when the API has answered 204 to the membership request of one of the
    allowed organizations, that request being the last one issued. *)
Theorem check_allowed_sound (username : string) (auth_model : option AuthModel)
    (w0 w' : world) :
  check_allowed self server build_userdata_request_headers super_check_allowed
    username auth_model w0 = (Ok true, w') →
  super_check_allowed username auth_model w0 = (Ok true, w')
  ∨ ∃ am w1 org_team rq history,
      auth_model = Some am
      ∧ super_check_allowed username auth_model w0 = (Ok false, w1)
      ∧ org_team ∈ allowed_organizations self
      ∧ request_of org_team username
          (access_token (token_response (auth_state am)))
          (token_type (token_response (auth_state am))) = Ok rq
      ∧ requests w' = history ++ [rq]
      ∧ code (server history rq) = 204%Z.
Proof.
  unfold check_allowed. unfold bind at 1.
  destruct (super_check_allowed username auth_model w0) as [[[|]|exn] w1] eqn:Hs.
  - intros [= <-]. by left.
  - case_bool_decide; [|discriminate].
    destruct auth_model as [am|]; [|discriminate].
    unfold bind.
    destruct (organizations_loop _ _ _ _ _ _ _ w1) as [[[|]|exn] w2] eqn:Hl;
      [|discriminate..].
    intros [= <-]. right.
    apply loop_true in Hl as (e & rq & h & ? & ? & ? & ?).
    by exists am, w1, e, rq, h.
  - discriminate.
Qed.

(** X21: the login costs at most one GET for each allowed organization,
    after what the base decision did, and none at all when the base
    decision allows or raises, or when no organization is configured. *)
Theorem check_allowed_requests (username : string) (auth_model : option AuthModel)
    (w0 w1 w' : world) (b r : result bool) :
  super_check_allowed username auth_model w0 = (b, w1) →
  check_allowed self server build_userdata_request_headers super_check_allowed
    username auth_model w0 = (r, w') →
  ∃ reqs,
    requests w' = requests w1 ++ reqs
    ∧ length reqs ≤ length (allowed_organizations self)
    ∧ (b ≠ Ok false → reqs = [] ∧ r = b ∧ w' = w1)
    ∧ (b = Ok false → allowed_organizations self = [] → r = Ok false ∧ w' = w1).
Proof.
  intros Hs. unfold check_allowed. unfold bind at 1. rewrite Hs.
  destruct b as [[|]|exn].
  - intros [= <- <-]. exists []. rewrite app_nil_r.
    split_and!; [done|simpl; lia|done|discriminate].
  - case_bool_decide as Hne.
    + destruct auth_model as [am|].
      * unfold bind.
        destruct (organizations_loop _ _ _ _ _ _ _ w1) as [[[|]|exn] w2] eqn:Hl;
          intros [= <- <-];
          apply loop_requests in Hl as (reqs & Hw & Hlen);
          exists reqs; (split_and!; [done|done|done|done]).
      * intros [= <- <-]. exists []. rewrite app_nil_r.
        split_and!; [done|simpl; lia|done|done].
    + intros [= <- <-]. exists []. rewrite app_nil_r.
      split_and!; [done|simpl; lia|done|done].
  - intros [= <- <-]. exists []. rewrite app_nil_r.
    split_and!; [done|simpl; lia|done|discriminate].
Qed.

(** X22: a membership check that raises ends the login with its
    exception: the entries after it are not consulted, whatever the API
    would answer for them. *)
Theorem check_allowed_check_raises (username : string) (am : AuthModel)
    (w0 w1 w2 w3 : world) before org_team after (e : exn) :
  super_check_allowed username (Some am) w0 = (Ok false, w1) →
  allowed_organizations self = before ++ org_team :: after →
  let access_token := access_token (token_response (auth_state am)) in
  let token_type := token_type (token_response (auth_state am)) in
  denied username access_token token_type before w1 w2 →
  check_membership org_team username access_token token_type w2 = (Raise e, w3) →
  check_allowed self server build_userdata_request_headers super_check_allowed
    username (Some am) w0 = (Raise e, w3).
Proof.
  intros Hs Horgs tok ty Hbefore He. unfold check_allowed.
  unfold bind at 1. rewrite Hs.
  rewrite bool_decide_true by (rewrite Horgs; by destruct before).
  fold tok ty. unfold bind at 1.
  rewrite Horgs, (organizations_loop_denied _ _ _ _ _ _ before _ w1 w2 Hbefore).
  cbn [organizations_loop]. unfold bind at 1. by rewrite He.
Qed.

Abbreviation page := (fetch_page server parse_header_links build_userdata_request_headers).
Abbreviation pages_from :=
  (paginated_loop server parse_header_links build_userdata_request_headers).

Lemma fetch_page_request url content access_token token_type (w w' : world) r :
  page url content access_token token_type w = (r, w') →
  requests w'
  = requests w ++ [mkRequest url "GET"
                     (build_userdata_request_headers access_token token_type)]
  ∧ log w' = log w.
Proof.
  unfold fetch_page, bind, httpfetch, lift, ret, raise.
  destruct (_ && _); [by intros [= <- <-]|].
  destruct (body_json _); [|by intros [= <- <-]].
  destruct (extend _ _); [|by intros [= <- <-]].
  destruct (link_header _) as [h|]; [|by intros [= <- <-]].
  case_bool_decide; [by intros [= <- <-]|].
  destruct (find_next _); by intros [= <- <-].
Qed.

Lemma paginated_loop_log (fuel : nat) url content access_token token_type
    (w w' : world) (r : result (list json)) :
  pages_from fuel url content access_token token_type w = Some (r, w') →
  log w' = log w.
Proof.
  revert url content w. induction fuel as [|fuel IH]; intros url content w;
    [discriminate|].
  cbn [paginated_loop].
  destruct (page url content access_token token_type w) as [[[c [next|]]|e] w1] eqn:Hp;
    pose proof (fetch_page_request _ _ _ _ _ _ _ Hp) as [_ Hlog].
  - intros Hrest. apply IH in Hrest. congruence.
  - by intros [= <- <-].
  - by intros [= <- <-].
Qed.

(** X23: the fuel does not matter once it suffices: a fetch that leaves
    its loop within [n] turns gives the same result with any more fuel; it
    has issued one GET at least and [n] at most, and logged nothing. *)
Theorem paginated_fetch_fuel (api_url access_token token_type : string)
    (n : nat) (w w' : world) (r : result (list json)) :
  _paginated_fetch server parse_header_links build_userdata_request_headers
    n api_url access_token token_type w = Some (r, w') →
  (∀ m, n ≤ m →
     _paginated_fetch server parse_header_links build_userdata_request_headers
       m api_url access_token token_type w = Some (r, w'))
  ∧ ∃ reqs, requests w' = requests w ++ reqs
            ∧ 1 ≤ length reqs ≤ n
            ∧ log w' = log w.
Proof.
  unfold _paginated_fetch. generalize (@nil json) as content.
  revert api_url w. induction n as [|n IH]; intros url w content; [discriminate|].
  cbn [paginated_loop].
  destruct (page url content access_token token_type w) as [[[c [next|]]|e] w1] eqn:Hp;
    pose proof (fetch_page_request _ _ _ _ _ _ _ Hp) as [Hreq Hlog].
  - intros Hrest. destruct (IH _ _ _ Hrest) as (Hmono & reqs & Hw & Hlen & Hl).
    split.
    + intros [|m] Hm; [lia|]. cbn [paginated_loop]. rewrite Hp. apply Hmono. lia.
    + eexists (_ :: reqs). rewrite Hw, Hreq, <-app_assoc. split; [done|].
      simpl. split; [lia|congruence].
  - intros [= <- <-]. split.
    + intros [|m] Hm; [lia|]. cbn [paginated_loop]. by rewrite Hp.
    + eexists [_]. split; [done|]. simpl. split; [lia|done].
  - intros [= <- <-]. split.
    + intros [|m] Hm; [lia|]. cbn [paginated_loop]. by rewrite Hp.
    + eexists [_]. split; [done|]. simpl. split; [lia|done].
Qed.

(** X24: nothing bounds the loop: against an API whose page links to
    itself as its next page, the fetch does not leave its loop, whatever
    the fuel. *)
Theorem paginated_fetch_endless (api_url access_token token_type : string)
    (items : list json) (links_header : string) :
  let headers := build_userdata_request_headers access_token token_type in
  (∀ history,
     let resp := server history (mkRequest api_url "GET" headers) in
     (200 ≤ code resp < 300)%Z
     ∧ body_json resp = Some (JArr items)
     ∧ link_header resp = Some links_header) →
  links_header ≠ "" →
  next_link (parse_header_links links_header) api_url →
  ∀ fuel w,
    _paginated_fetch server parse_header_links build_userdata_request_headers
      fuel api_url access_token token_type w = None.
Proof.
  intros headers Hpage Hne Hnext fuel. unfold _paginated_fetch.
  generalize (@nil json) as content.
  induction fuel as [|fuel IH]; intros content w; [done|].
  cbn [paginated_loop].
  destruct (Hpage (requests w)) as (Hcode & Hbody & Hlink).
  unfold fetch_page, bind, httpfetch, lift, ret. fold headers.
  rewrite bool_decide_true by done. simpl. rewrite Hbody. simpl.
  rewrite Hlink, (bool_decide_false _ Hne), (find_next_some _ _ Hnext).
  apply IH.
Qed.

(** X25: a failing page fails the whole fetch: whatever was collected
    before, a page with an error status raises the client's error, a page
    whose body cannot be read as JSON raises a [ValueError] (the
    [UnicodeDecodeError] of the strict decoding for a body that is not
    UTF-8, the decoder's [JSONDecodeError] for text that is not JSON) and a
    page whose body is JSON [null], a boolean or a number raises
    [TypeError], right after the GET of that page. *)
Theorem paginated_fetch_page_errors (url access_token token_type : string)
    (content : list json) (fuel : nat) (w : world) :
  let rq := mkRequest url "GET"
              (build_userdata_request_headers access_token token_type) in
  let resp := server (requests w) rq in
  let w' := mkWorld (requests w ++ [rq]) (log w) in
  let run := pages_from (S fuel) url content access_token token_type w in
  (¬ (200 ≤ code resp < 300)%Z →
     run = Some (Raise (HTTPClientError (code resp)), w'))
  ∧ ((200 ≤ code resp < 300)%Z → body_json resp = None →
     run = Some (Raise ValueError, w'))
  ∧ ((200 ≤ code resp < 300)%Z →
     (body_json resp = Some JNull
      ∨ (∃ b, body_json resp = Some (JBool b))
      ∨ (∃ n, body_json resp = Some (JNum n))) →
     run = Some (Raise TypeError, w')).
Proof.
  intros rq resp w' run. unfold run. cbn [paginated_loop].
  unfold fetch_page, bind, httpfetch, lift, ret, raise. fold rq resp w'.
  split_and!.
  - intros Hc. by rewrite (bool_decide_false _ Hc).
  - intros Hc Hb. rewrite (bool_decide_true _ Hc). simpl. by rewrite Hb.
  - intros Hc Hb. rewrite (bool_decide_true _ Hc). simpl.
    destruct Hb as [->|[[b ->]|[n ->]]]; done.
Qed.

End Facts.

(** *** The properties at the example configurations *)

Lemma membership_check_target_witness :
  requests
    (_check_membership_allowed_organizations Examples.github Examples.org_a_server
       Examples.userdata_headers "org-b:team-x" "alice" "gho_token" "bearer"
       world0).2
  = [mkRequest "https://api.github.com/orgs/org-b/teams/team-x/members/alice"
       "GET" (Examples.userdata_headers "gho_token" "bearer")]
  ∧ _check_membership_allowed_organizations Examples.github Examples.org_a_server
      Examples.userdata_headers "a:b:c" "alice" "gho_token" "bearer" world0
    = (Raise ValueError, world0).
Proof.
  pose proof (membership_check_target Examples.github Examples.org_a_server
                Examples.userdata_headers "alice" "gho_token" "bearer" world0)
    as (_ & Hteam & Hbad).
  split.
  - exact (proj1 (Hteam "org-b" "team-x" eq_refl eq_refl)).
  - exact (Hbad "a" "b" "c" eq_refl eq_refl).
Defined.

Lemma membership_check_outcomes_witness :
  (∃ rq,
     membership_request Examples.github Examples.userdata_headers
       "org-a" "alice" "gho_token" "bearer" = Ok rq
     ∧ requests
         (mkWorld
            [mkRequest "https://api.github.com/orgs/org-a/members/alice" "GET"
               (Examples.userdata_headers "gho_token" "bearer")]
            [LogCheckingMembership "alice" "org-a";
             LogAllowingMember "alice" "org-a"])
       = requests world0 ++ [rq]
     ∧ let resp := Examples.org_a_server (requests world0) rq in
       (Ok true = Ok true ∧ code resp = 204%Z)
       ∨ (Ok true = Ok false ∧ code resp ≠ 204%Z)
       ∨ (@Ok bool true = Raise AttributeError ∧ code resp ≠ 204%Z
          ∧ ∃ j, body_json resp = Some j ∧ ∀ fields, j ≠ JObj fields))
  ∨ (@Ok bool true = Raise ValueError
     ∧ mkWorld
         [mkRequest "https://api.github.com/orgs/org-a/members/alice" "GET"
            (Examples.userdata_headers "gho_token" "bearer")]
         [LogCheckingMembership "alice" "org-a"; LogAllowingMember "alice" "org-a"]
       = world0
     ∧ membership_url Examples.github "org-a" "alice" = Raise ValueError).
Proof.
  refine (membership_check_outcomes Examples.github Examples.org_a_server
            Examples.userdata_headers "org-a" "alice" "gho_token" "bearer"
            world0 _ (Ok true) _).
  vm_compute. reflexivity.
Defined.

Lemma check_allowed_sound_witness :
  Examples.base_denies "alice" (Some Examples.alice_github_login) world0
  = (Ok true, Examples.allowed_world)
  ∨ ∃ am w1 org_team rq history,
      Some Examples.alice_github_login = Some am
      ∧ Examples.base_denies "alice" (Some Examples.alice_github_login) world0
        = (Ok false, w1)
      ∧ org_team ∈ allowed_organizations Examples.github
      ∧ membership_request Examples.github Examples.userdata_headers org_team "alice"
          (access_token (token_response (auth_state am)))
          (token_type (token_response (auth_state am))) = Ok rq
      ∧ requests Examples.allowed_world = history ++ [rq]
      ∧ code (Examples.org_a_server history rq) = 204%Z.
Proof.
  refine (check_allowed_sound Examples.github Examples.org_a_server
            Examples.userdata_headers Examples.base_denies
            "alice" (Some Examples.alice_github_login) world0 Examples.allowed_world _).
  vm_compute. reflexivity.
Defined.

Lemma check_allowed_requests_witness :
  ∃ reqs,
    requests Examples.allowed_world = requests world0 ++ reqs
    ∧ length reqs ≤ length (allowed_organizations Examples.github)
    ∧ (@Ok bool false ≠ Ok false → reqs = [] ∧ Ok true = Ok false ∧ Examples.allowed_world = world0)
    ∧ (@Ok bool false = Ok false → allowed_organizations Examples.github = [] →
       @Ok bool true = Ok false ∧ Examples.allowed_world = world0).
Proof.
  refine (check_allowed_requests Examples.github Examples.org_a_server
            Examples.userdata_headers Examples.base_denies
            "alice" (Some Examples.alice_github_login) world0 world0 Examples.allowed_world
            (Ok false) (Ok true) _ _).
  - reflexivity.
  - vm_compute. reflexivity.
Defined.

Lemma check_allowed_check_raises_witness :
  check_allowed Examples.github Examples.bad_gateway_server
    Examples.userdata_headers Examples.base_denies
    "alice" (Some Examples.alice_github_login) world0
  = (Raise AttributeError,
     mkWorld
       [mkRequest "https://api.github.com/orgs/org-c/members/alice" "GET"
          (Examples.userdata_headers "gho_token" "bearer")]
       [LogCheckingMembership "alice" "org-c"]).
Proof.
  refine (check_allowed_check_raises Examples.github Examples.bad_gateway_server
            Examples.userdata_headers Examples.base_denies
            "alice" Examples.alice_github_login world0 world0 world0 _
            [] "org-c" ["org-a"; "org-b:team-x"] AttributeError _ _ _ _).
  - reflexivity.
  - reflexivity.
  - apply all_denied_nil.
  - vm_compute. reflexivity.
Defined.

Lemma paginated_fetch_fuel_witness :
  (∀ m, 2 ≤ m →
     _paginated_fetch Examples.teams_server Examples.teams_links
       Examples.userdata_headers m Examples.teams_url "gho_token" "bearer" world0
     = Some (Ok [JStr "team-1"; JStr "team-2"; JStr "team-3"], Examples.fetched_world))
  ∧ ∃ reqs, requests Examples.fetched_world = requests world0 ++ reqs
            ∧ 1 ≤ length reqs ≤ 2
            ∧ log Examples.fetched_world = log world0.
Proof.
  refine (paginated_fetch_fuel Examples.teams_server Examples.teams_links
            Examples.userdata_headers Examples.teams_url "gho_token" "bearer"
            2 world0 Examples.fetched_world (Ok [JStr "team-1"; JStr "team-2"; JStr "team-3"]) _).
  vm_compute. reflexivity.
Defined.

Lemma paginated_fetch_endless_witness :
  _paginated_fetch Examples.loop_server Examples.loop_links
    Examples.userdata_headers 1000 Examples.teams_url "gho_token" "bearer" world0
  = None.
Proof.
  refine (paginated_fetch_endless Examples.loop_server Examples.loop_links
            Examples.userdata_headers Examples.teams_url "gho_token" "bearer"
            [JStr "team-1"] Examples.loop_link _ _ _ 1000 world0).
  - intros history. vm_compute. repeat split; discriminate.
  - discriminate.
  - exists [], {[ "url" := Examples.teams_url; "rel" := "next" ]}, [].
    split; [vm_compute; reflexivity|]. split; [|split; vm_compute; reflexivity].
    intros l Hl. inversion Hl.
Defined.

Lemma paginated_fetch_page_errors_witness :
  paginated_loop Examples.undecodable_server Examples.teams_links
    Examples.userdata_headers 1 Examples.teams_url [JStr "team-0"]
    "gho_token" "bearer" world0
  = Some (Raise ValueError,
          mkWorld
            [mkRequest Examples.teams_url "GET"
               (Examples.userdata_headers "gho_token" "bearer")] []).
Proof.
  refine (proj1 (proj2
            (paginated_fetch_page_errors Examples.undecodable_server
               Examples.teams_links Examples.userdata_headers
               Examples.teams_url "gho_token" "bearer" [JStr "team-0"] 0 world0))
            _ _).
  - vm_compute. split; [discriminate|reflexivity].
  - reflexivity.
Defined.

End GitHubMore.

(** ** GitHub: the update of the authentication model *)

Module GitHubUpdateFacts.
Import GitHub GitHubFacts GitHubUpdate.

Section Facts.

Variable self : GitHubOAuthenticator.
Variable traits : Traits.
Variable server : list request → request → response.
Variable parse_header_links : string → list (gmap string string).
Variable build_userdata_request_headers : string → string → list (string * string).

Abbreviation fetch_email :=
  (fetch_private_email self server build_userdata_request_headers).
Abbreviation update :=
  (update_auth_model self traits server parse_header_links
     build_userdata_request_headers).

Lemma primary_email_first before fields after primary email :
  Forall secondary before →
  obj_get fields "primary" = Some primary →
  json_truthy primary = true →
  obj_get fields "email" = Some email →
  primary_email (before ++ JObj fields :: after) = Ok (Some email).
Proof.
  intros Hbefore Hp Ht He.
  induction Hbefore as [|r before (fs & p & -> & Hfs & Hf) _ IH]; simpl.
  - by rewrite Hp, Ht, He.
  - by rewrite Hfs, Hf.
Qed.

Lemma primary_email_none records :
  Forall secondary records → primary_email records = Ok None.
Proof.
  induction 1 as [|r records (fs & p & -> & Hfs & Hf) _ IH]; simpl; [done|].
  by rewrite Hfs, Hf.
Qed.

(** X26: the private e-mail.  When the user record has no e-mail and the
    scope [user] or [user:email] was granted, one GET asks the API for the
    addresses, and the e-mail of the record becomes that of the first
    address marked primary; with no primary address the record stays as it
    was. *)
Theorem private_email_fetched (auth_model : GitHubAuthModel) (email : json)
    (records : list json) (w : world) :
  let auth_state := github_auth_state auth_model in
  let rq := mkRequest (github_api self +:+ "/user/emails") "GET"
              (build_userdata_request_headers
                 (access_token (github_token_response auth_state))
                 (token_type (github_token_response auth_state))) in
  let resp := server (requests w) rq in
  let w' := mkWorld (requests w ++ [rq]) (log w) in
  github_user auth_state !! "email" = Some email →
  json_truthy email = false →
  "user" ∈ default [] (granted_scope auth_state)
  ∨ "user:email" ∈ default [] (granted_scope auth_state) →
  (200 ≤ code resp < 300)%Z →
  body_json resp = Some (JArr records) →
  (∀ before fields after primary address,
     records = before ++ JObj fields :: after →
     Forall secondary before →
     obj_get fields "primary" = Some primary →
     json_truthy primary = true →
     obj_get fields "email" = Some address →
     fetch_email auth_model w
     = (Ok (mkGitHubAuthModel (github_admin auth_model)
              (mkGitHubAuthState (<["email" := address]> (github_user auth_state))
                 (github_token_response auth_state)
                 (granted_scope auth_state) (teams auth_state))), w'))
  ∧ (Forall secondary records → fetch_email auth_model w = (Ok auth_model, w')).
Proof.
  intros st rq resp w' Hemail Hfalsy Hscope Hcode Hbody.
  assert (fetch_email auth_model w
          = match primary_email records with
            | Ok (Some address) =>
                (Ok (mkGitHubAuthModel (github_admin auth_model)
                       (mkGitHubAuthState (<["email" := address]> (github_user st))
                          (github_token_response st)
                          (granted_scope st) (teams st))), w')
            | Ok None => (Ok auth_model, w')
            | Raise e => (Raise e, w')
            end) as ->.
  { unfold fetch_private_email. fold st. unfold getitem. rewrite Hemail.
    unfold bind at 1, lift at 1. rewrite Hfalsy.
    assert (bool_decide ("user" ∈ default [] (granted_scope st))
            || bool_decide ("user:email" ∈ default [] (granted_scope st)) = true) as ->.
    { destruct Hscope as [H|H]; rewrite (bool_decide_true _ H);
        [done|by rewrite orb_true_r]. }
    simpl. unfold httpfetch_json, httpfetch, bind, lift, ret, raise.
    fold rq resp w'. rewrite (bool_decide_true _ Hcode). simpl. rewrite Hbody.
    simpl. by destruct (primary_email records) as [[?|]|]. }
  split.
  - intros before fields after primary address -> Hb Hp Ht He.
    by rewrite (primary_email_first before fields after primary address).
  - intros Hall. by rewrite primary_email_none.
Qed.

(** X27: the e-mail is not asked for when the user record has one, nor
    when neither [user] nor [user:email] was granted: the model comes back
    as it was and nothing is requested.  A user record without the key
    [email] raises [KeyError]. *)
Theorem private_email_not_fetched (auth_model : GitHubAuthModel) (w : world) :
  let auth_state := github_auth_state auth_model in
  (∀ email,
     github_user auth_state !! "email" = Some email →
     json_truthy email = true
     ∨ (("user" ∉ default [] (granted_scope auth_state))
        ∧ "user:email" ∉ default [] (granted_scope auth_state)) →
     fetch_email auth_model w = (Ok auth_model, w))
  ∧ (github_user auth_state !! "email" = None →
     fetch_email auth_model w = (Raise (KeyError "email"), w)).
Proof.
  intros st. split.
  - intros email Hemail Hwhy. unfold fetch_private_email. fold st.
    unfold getitem. rewrite Hemail. unfold bind at 1, lift at 1.
    destruct Hwhy as [->|[H1 H2]]; [done|].
    rewrite (bool_decide_false _ H1), (bool_decide_false _ H2).
    by rewrite andb_false_r.
  - intros Hemail. unfold fetch_private_email. fold st.
    unfold getitem. by rewrite Hemail.
Qed.

Lemma fetch_email_frame (auth_model auth_model' : GitHubAuthModel) (w w' : world) :
  fetch_email auth_model w = (Ok auth_model', w') →
  github_admin auth_model' = github_admin auth_model
  ∧ github_token_response (github_auth_state auth_model')
    = github_token_response (github_auth_state auth_model)
  ∧ granted_scope (github_auth_state auth_model')
    = granted_scope (github_auth_state auth_model)
  ∧ teams (github_auth_state auth_model') = teams (github_auth_state auth_model)
  ∧ (∀ key, key ≠ "email" →
       github_user (github_auth_state auth_model') !! key
       = github_user (github_auth_state auth_model) !! key)
  ∧ log w' = log w.
Proof.
  unfold fetch_private_email. unfold bind at 1, lift at 1.
  destruct (getitem _ "email") as [email|]; [|discriminate].
  destruct (_ && _); [|by intros [= <- <-]].
  unfold httpfetch_json, httpfetch, bind, lift, ret, raise.
  destruct (_ && _); [discriminate|].
  destruct (body_json _) as [j|]; [|discriminate].
  destruct (extend [] j) as [records|]; [|discriminate].
  destruct (primary_email records) as [[address|]|]; [| |discriminate].
  - intros [= <- <-]. simpl. split_and!; try done.
    intros key Hkey. by rewrite lookup_insert_ne.
  - by intros [= <- <-].
Qed.

(** X28: what the update leaves alone.  A model that comes back from
    [update_auth_model] has the admin flag, the token response and the
    granted scopes it had, and the user record it had but for the e-mail;
    its teams are changed only when they are to be populated and the
    configured scopes hold [read:org]; when they are to be populated and
    [read:org] is missing, the one error line is written, and no other
    case writes one. *)
Theorem update_auth_model_frame (fuel : nat) (auth_model auth_model' : GitHubAuthModel)
    (s s' : session) :
  update fuel auth_model s = Some (Ok auth_model', s') →
  github_admin auth_model' = github_admin auth_model
  ∧ github_token_response (github_auth_state auth_model')
    = github_token_response (github_auth_state auth_model)
  ∧ granted_scope (github_auth_state auth_model')
    = granted_scope (github_auth_state auth_model)
  ∧ (∀ key, key ≠ "email" →
       github_user (github_auth_state auth_model') !! key
       = github_user (github_auth_state auth_model) !! key)
  ∧ (populate_teams_in_auth_state traits = false ∨ "read:org" ∉ scope traits →
     teams (github_auth_state auth_model') = teams (github_auth_state auth_model))
  ∧ (if populate_teams_in_auth_state traits && bool_decide ("read:org" ∉ scope traits)
     then error_log s'
          = error_log s ++
            ["read:org scope is required for populate_teams_in_auth_state functionality to work"]
     else error_log s' = error_log s)
  ∧ log (io s') = log (io s).
Proof.
  unfold update_auth_model.
  destruct (fetch_email auth_model (io s)) as [[am1|e] w1] eqn:Hemail; [|discriminate].
  apply fetch_email_frame in Hemail as (Ha & Ht & Hg & Hteams & Hu & Hlog).
  destruct (populate_teams_in_auth_state traits); simpl.
  - case_bool_decide as Hscope.
    + intros [= <- <-]. simpl. split_and!; done.
    + destruct (_paginated_fetch _ _ _ _ _ _ _ w1) as [[[user_teams|e] w2]|] eqn:Hp;
        [|discriminate..].
      intros [= <- <-]. simpl.
      apply GitHubMore.paginated_loop_log in Hp as Hlog2.
      split_and!; try done; [by intros [?|?]|congruence].
  - intros [= <- <-]. simpl. split_and!; done.
Qed.

(** X29: the teams.  When they are to be populated and the configured
    scopes hold [read:org], then over a chain of [N] pages from the teams
    URL, and with fuel for [N] turns or more, the model comes back with the
    teams of all the pages, in page order, after the [N] GETs of the
    pages. *)
Theorem update_auth_model_teams (fuel : nat) (auth_model auth_model1 : GitHubAuthModel)
    (pages : list (string * list json)) (s : session) (w1 : world) :
  let auth_state := github_auth_state auth_model1 in
  let headers := build_userdata_request_headers
                   (access_token (github_token_response auth_state))
                   (token_type (github_token_response auth_state)) in
  populate_teams_in_auth_state traits = true →
  "read:org" ∈ scope traits →
  fetch_email auth_model (io s) = (Ok auth_model1, w1) →
  page_chain server parse_header_links headers (requests w1)
    (GitHubUpdate.teams_url self) pages →
  length pages ≤ fuel →
  update fuel auth_model s
  = Some (Ok (mkGitHubAuthModel (github_admin auth_model1)
                (mkGitHubAuthState (github_user auth_state)
                   (github_token_response auth_state)
                   (granted_scope auth_state)
                   (Some (concat (snd <$> pages))))),
          mkSession
            (mkWorld
               (requests w1
                ++ ((λ page, mkRequest (fst page) "GET" headers) <$> pages))
               (log w1))
            (error_log s)).
Proof.
  intros st headers Hpop Hscope Hemail Hchain Hfuel.
  unfold update_auth_model. rewrite Hemail, Hpop.
  rewrite bool_decide_false by (by intros H).
  unfold _paginated_fetch. fold st.
  by rewrite (paginated_loop_chain server parse_header_links
                build_userdata_request_headers _ _ _ _ _ Hchain fuel [] w1).
Qed.

End Facts.

(** *** The properties at the example logins *)

Lemma private_email_fetched_witness :
  fetch_private_email Examples.github Examples.account_server
    Examples.userdata_headers Examples.private_alice world0
  = (Ok (mkGitHubAuthModel false
           (mkGitHubAuthState
              (<["email" := JStr "alice@uni.edu"]>
                 (github_user (github_auth_state Examples.private_alice)))
              Examples.token (Some ["read:org"; "user:email"]) None)),
     mkWorld
       [mkRequest Examples.emails_url "GET"
          (Examples.userdata_headers "gho_token" "bearer")] []).
Proof.
  refine (proj1 (private_email_fetched Examples.github Examples.account_server
                   Examples.userdata_headers Examples.private_alice JNull
                   [ JObj [("email", JStr "alice@old.example"); ("primary", JBool false)];
                     JObj [("email", JStr "alice@uni.edu"); ("primary", JBool true)] ]
                   world0 _ _ _ _ _)
            [ JObj [("email", JStr "alice@old.example"); ("primary", JBool false)] ]
            [("email", JStr "alice@uni.edu"); ("primary", JBool true)] []
            (JBool true) (JStr "alice@uni.edu") _ _ _ _ _).
  - vm_compute. reflexivity.
  - reflexivity.
  - right. apply list_elem_of_further, list_elem_of_here.
  - vm_compute. split; [discriminate|reflexivity].
  - reflexivity.
  - reflexivity.
  - constructor; [|constructor].
    exists [("email", JStr "alice@old.example"); ("primary", JBool false)], (JBool false).
    split; [reflexivity|]. split; reflexivity.
  - reflexivity.
  - reflexivity.
  - reflexivity.
Defined.

Lemma private_email_not_fetched_witness :
  fetch_private_email Examples.github Examples.account_server
    Examples.userdata_headers Examples.public_alice world0
  = (Ok Examples.public_alice, world0).
Proof.
  refine (proj1 (private_email_not_fetched Examples.github Examples.account_server
                   Examples.userdata_headers Examples.public_alice world0)
            (JStr "alice@uni.edu") _ _).
  - vm_compute. reflexivity.
  - left. reflexivity.
Defined.

Lemma update_auth_model_frame_witness :
  let auth_model' :=
    mkGitHubAuthModel false
      (mkGitHubAuthState
         (<["email" := JStr "alice@uni.edu"]>
            (github_user (github_auth_state Examples.private_alice)))
         Examples.token (Some ["read:org"; "user:email"]) None) in
  let s' :=
    mkSession
      (mkWorld
         [mkRequest Examples.emails_url "GET"
            (Examples.userdata_headers "gho_token" "bearer")] []) [] in
  github_admin auth_model' = github_admin Examples.private_alice
  ∧ github_token_response (github_auth_state auth_model')
    = github_token_response (github_auth_state Examples.private_alice)
  ∧ granted_scope (github_auth_state auth_model')
    = granted_scope (github_auth_state Examples.private_alice)
  ∧ (∀ key, key ≠ "email" →
       github_user (github_auth_state auth_model') !! key
       = github_user (github_auth_state Examples.private_alice) !! key)
  ∧ (populate_teams_in_auth_state Examples.without_teams = false
     ∨ "read:org" ∉ scope Examples.without_teams →
     teams (github_auth_state auth_model')
     = teams (github_auth_state Examples.private_alice))
  ∧ (if populate_teams_in_auth_state Examples.without_teams
        && bool_decide ("read:org" ∉ scope Examples.without_teams)
     then error_log s'
          = error_log Examples.session0 ++
            ["read:org scope is required for populate_teams_in_auth_state functionality to work"]
     else error_log s' = error_log Examples.session0)
  ∧ log (io s') = log (io Examples.session0).
Proof.
  refine (update_auth_model_frame Examples.github Examples.without_teams
            Examples.account_server Examples.teams_links Examples.userdata_headers
            0 Examples.private_alice _ Examples.session0 _ _).
  vm_compute. reflexivity.
Defined.

Lemma update_auth_model_teams_witness :
  update_auth_model Examples.github Examples.with_teams Examples.account_server
    Examples.teams_links Examples.userdata_headers 2 Examples.public_alice
    Examples.session0
  = Some (Ok (mkGitHubAuthModel false
                (mkGitHubAuthState
                   (github_user (github_auth_state Examples.public_alice))
                   Examples.token (Some ["read:org"; "user:email"])
                   (Some [JStr "team-1"; JStr "team-2"; JStr "team-3"]))),
          mkSession Examples.fetched_world []).
Proof.
  refine (update_auth_model_teams Examples.github Examples.with_teams
            Examples.account_server Examples.teams_links Examples.userdata_headers
            2 Examples.public_alice Examples.public_alice
            [(Examples.teams_url, [JStr "team-1"; JStr "team-2"]);
             (Examples.teams_url_2, [JStr "team-3"])]
            Examples.session0 world0 _ _ _ _ _).
  - reflexivity.
  - apply list_elem_of_here.
  - vm_compute. reflexivity.
  - eapply (page_chain_next _ _ _ _ _ _ Examples.teams_link Examples.teams_url_2).
    + vm_compute. split; [discriminate|reflexivity].
    + reflexivity.
    + reflexivity.
    + discriminate.
    + exists [], {[ "url" := Examples.teams_url_2; "rel" := "next" ]},
        [ {[ "url" := Examples.teams_url_2; "rel" := "last" ]} ].
      split; [vm_compute; reflexivity|]. split; [|split; vm_compute; reflexivity].
      intros l Hl. inversion Hl.
    + apply page_chain_last.
      * vm_compute. split; [discriminate|reflexivity].
      * reflexivity.
      * exact I.
  - simpl. lia.
Defined.

End GitHubUpdateFacts.
